(** * Transcript service: cache and language resolution

    A shallow embedding of [src/main.py]: the in-memory cache
    ([get_cache_key], [get_from_cache], [set_cache]) and the endpoint
    [get_transcript] with its ordered language resolution and its
    exception handlers.

    Conventions.
    - The module-level [cache] dict is threaded explicitly: every function
      that reads or writes it takes the dict and returns the new one.
    - A Python [dict] is an association list in insertion order with
      pairwise distinct keys; assignment to a present key keeps its place,
      assignment to a new key appends.
    - [datetime] values are integers counting microseconds; each call of
      [datetime.now()] is a clock reading passed in by the caller.
    - A call that may raise returns a [result]. *)

From Stdlib Require Import List String Ascii ZArith Lia Bool Arith DecimalString.
Import ListNotations.
Local Open Scope string_scope.
Local Open Scope Z_scope.

(** ** Python dictionaries with string keys *)

Module PyDict.
Section Dict.
Context {V : Type}.

Definition t := list (string * V).

(** [d.get(k)]: [None] when [k not in d]. *)
Fixpoint get (k : string) (d : t) : option V :=
  match d with
  | [] => None
  | (k', v) :: r => if String.eqb k k' then Some v else get k r
  end.

(** [k in d] *)
Definition contains (k : string) (d : t) : bool :=
  match get k d with Some _ => true | None => false end.

(** [del d[k]] *)
Fixpoint del (k : string) (d : t) : t :=
  match d with
  | [] => []
  | (k', v) :: r => if String.eqb k k' then r else (k', v) :: del k r
  end.

(** [d[k] = v] *)
Fixpoint set (k : string) (v : V) (d : t) : t :=
  match d with
  | [] => [(k, v)]
  | (k', v') :: r =>
      if String.eqb k k' then (k, v) :: r else (k', v') :: set k v r
  end.

(** [d.keys()], in iteration order. *)
Definition keys (d : t) : list string := map fst d.

(** [len(d)] *)
Definition len (d : t) : nat := List.length d.

Fixpoint mem (k : string) (l : list string) : bool :=
  match l with
  | [] => false
  | k' :: r => String.eqb k k' || mem k r
  end.

Fixpoint unique (l : list string) : bool :=
  match l with
  | [] => true
  | k :: r => negb (mem k r) && unique r
  end.

(** The representation invariant: no key is bound twice. *)
Definition wf (d : t) : Prop := unique (keys d) = true.

End Dict.
Arguments t : clear implicits.
End PyDict.

(** [min(xs, key=f)] keeps the first element whose key is minimal: the
    running best is replaced only by a strictly smaller key. *)
Fixpoint min_from {A : Type} (f : A -> Z) (best : A) (xs : list A) : A :=
  match xs with
  | [] => best
  | x :: r => if f x <? f best then min_from f x r else min_from f best r
  end.

(** [None] stands for the [ValueError] of [min] on an empty sequence. *)
Definition py_min {A : Type} (f : A -> Z) (xs : list A) : option A :=
  match xs with
  | [] => None
  | x :: r => Some (min_from f x r)
  end.

(** ** The cache *)

Definition CACHE_MAX_SIZE : nat := 256.

(** [timedelta(seconds=n)] in microseconds. *)
Definition timedelta_seconds (n : Z) : Z := n * 1000000.

Section Cache.
(** The type of the cached [data] dict; fixed further down. *)
Context {Data : Type}.

Record Entry := mkEntry { data : Data; expires_at : Z }.

Definition Cache := PyDict.t Entry.

(** [get_from_cache(key)] at clock reading [now]: the returned value and
    the cache after the call. *)
Definition get_from_cache (cache : Cache) (key : string) (now : Z)
  : option Data * Cache :=
  match PyDict.get key cache with
  | None => (None, cache)
  | Some entry =>
      if now >? expires_at entry
      then (None, PyDict.del key cache)
      else (Some (data entry), cache)
  end.

(** [min(cache.keys(), key=lambda k: cache[k]["expires_at"])]: the keys
    are visited in iteration order and [cache[k]] is the entry bound to
    [k], so the scan runs over the bindings and returns the key. *)
Definition oldest_key (cache : Cache) : option string :=
  option_map fst (py_min (fun kv => expires_at (snd kv)) cache).

(** [set_cache(key, data)] with [CACHE_TTL_SECONDS = ttl] at clock
    reading [now].  [min] cannot be given an empty dict here, since
    [len(cache) >= 256] (lemma [oldest_key_full]). *)
Definition set_cache (ttl : Z) (cache : Cache) (key : string) (d : Data)
           (now : Z) : Cache :=
  let cache1 :=
    if (CACHE_MAX_SIZE <=? PyDict.len cache)%nat
    then match oldest_key cache with
         | Some oldest => PyDict.del oldest cache
         | None => cache
         end
    else cache in
  PyDict.set key (mkEntry d (now + timedelta_seconds ttl)) cache1.

End Cache.
Arguments Entry : clear implicits.
Arguments Cache : clear implicits.

(** [get_cache_key(video_id, lang)]: the f-string [f"{video_id}:{lang}"]. *)
Definition get_cache_key (video_id lang : string) : string :=
  video_id ++ ":" ++ lang.

(** ** Exceptions and results *)

(** The exception classes the endpoint tells apart; the four named ones
    are siblings in the provider library, [OtherError msg] is any other
    [Exception], with [msg] its [str(e)]. *)
Inductive Exn :=
| TranscriptsDisabled
| NoTranscriptFound
| VideoUnavailable
| TooManyRequests
| OtherError (msg : string).

Inductive result (A : Type) :=
| Ok (a : A)
| Raise (e : Exn).
Arguments Ok {A} a.
Arguments Raise {A} e.

(** ** Data of a request *)

(** One raw entry of [transcript.fetch()]: [text] and [start] are always
    there, [duration] may be missing.  Offsets are only copied, never
    computed with, and are kept as integers. *)
Record Item := mkItem {
  item_text : string;
  item_start : Z;
  item_duration : option Z
}.

Record Segment := mkSegment {
  seg_text : string;
  seg_start : Z;
  seg_duration : Z
}.

(** The [result] dict and the dicts returned to the caller: the keys
    [language_used] and [segments] may be absent. *)
Record Payload := mkPayload {
  video_id : string;
  text : string;
  language_used : option string;
  segments : option (list Segment);
  request_id : string
}.

(** The [HTTPException] raised at the boundary; [detail] is a dict whose
    keys other than [error] may be absent. *)
Record HTTPException := mkHTTP {
  status_code : Z;
  error : string;
  message : option string;
  detail : option string;
  err_request_id : option string
}.

Record Request := mkRequest {
  req_video_id : string;
  req_lang : option string;
  req_format : string;
  req_x_api_key : option string;
  req_request_id : string
}.

(** The environment read at start-up. *)
Record Config := mkConfig {
  API_KEY : string;
  CACHE_TTL_SECONDS : Z
}.

Definition default_config : Config := mkConfig "" 3600.

(** The transcript library, as far as the endpoint calls it.  [TList] is
    the catalogue object, [Track] one transcript. *)
Record Provider (TList Track : Type) := mkProvider {
  (** [YouTubeTranscriptApi.list_transcripts(video_id)] *)
  list_transcripts : string -> result TList;
  (** [transcript_list.find_transcript(codes)] *)
  find_transcript : TList -> list string -> result Track;
  (** [list(transcript_list)] *)
  list_of : TList -> result (list Track);
  (** [track.translate(code)] *)
  translate : Track -> string -> result Track;
  (** [track.fetch()] *)
  fetch : Track -> result (list Item)
}.
Arguments list_transcripts {TList Track}.
Arguments find_transcript {TList Track}.
Arguments list_of {TList Track}.
Arguments translate {TList Track}.
Arguments fetch {TList Track}.

(** Truth value of a string. *)
Definition truthy (s : string) : bool := negb (String.eqb s "").

(** [x or default] for an optional string [x]. *)
Definition or_else (x : option string) (default : string) : string :=
  match x with
  | Some s => if truthy s then s else default
  | None => default
  end.

(** [languages] of [get_transcript]. *)
Definition languages_of (lang : option string) : list string :=
  match lang with
  | Some l => if truthy l then [l] else ["pt-BR"; "pt"; "pt-PT"; "en"]
  | None => ["pt-BR"; "pt"; "pt-PT"; "en"]
  end.

(** The API key test: [True] when the request is turned away. *)
Definition unauthorized (api_key : string) (x_api_key : option string) : bool :=
  truthy api_key &&
  match x_api_key with
  | None => true
  | Some k => negb (truthy k) || negb (String.eqb k api_key)
  end.

(** [except (NoTranscriptFound, TranscriptsDisabled)] *)
Definition not_found_or_disabled (e : Exn) : bool :=
  match e with
  | NoTranscriptFound | TranscriptsDisabled => true
  | _ => false
  end.

(** The dict returned for [format == "text"]. *)
Definition text_only (r : Payload) (request_id : string) : Payload :=
  mkPayload (video_id r) (text r) None None request_id.

(** [result["request_id"] = request_id] *)
Definition with_request_id (r : Payload) (request_id : string) : Payload :=
  mkPayload (video_id r) (text r) (language_used r) (segments r) request_id.

Definition segment_of (item : Item) : Segment :=
  mkSegment (item_text item) (item_start item)
            (match item_duration item with Some d => d | None => 0 end).

(** The five [except] clauses of [get_transcript]. *)
Definition handle (e : Exn) (request_id : string) : HTTPException :=
  let no_transcript :=
    mkHTTP 404 "no_transcript"
           (Some "Sem transcrição/legenda disponível para este vídeo.")
           None (Some request_id) in
  match e with
  | TranscriptsDisabled => no_transcript
  | NoTranscriptFound => no_transcript
  | VideoUnavailable =>
      mkHTTP 404 "video_unavailable" (Some "Vídeo indisponível.")
             None (Some request_id)
  | TooManyRequests =>
      mkHTTP 429 "rate_limited"
             (Some "Rate limit do YouTube. Tente novamente mais tarde.")
             None (Some request_id)
  | OtherError error_msg =>
      mkHTTP 500 "internal_error" (Some "Erro interno.")
             (Some (if truthy error_msg
                    then String.substring 0 100 error_msg
                    else "Erro desconhecido"))
             (Some request_id)
  end.

Section Resolver.
Context {TList Track : Type} (P : Provider TList Track).

(** One turn of [for preferred_lang in languages]: [Some t] when the
    turn ends in [break] with [transcript = t] and
    [language_used = preferred_lang], [None] when it goes on to the next
    language (by [continue] or by reaching the end of the body). *)
Definition try_language (transcript_list : TList) (preferred_lang : string)
  : option Track :=
  match find_transcript P transcript_list [preferred_lang] with
  | Ok t => Some t
  | Raise e =>
      if not_found_or_disabled e then
        match list_of P transcript_list with
        | Ok (first :: _) =>
            match translate P first preferred_lang with
            | Ok t => Some t
            | Raise _ => None
            end
        | Ok [] => None
        | Raise _ => None
        end
      else None
  end.

(** The whole loop: the values of [transcript] and [language_used] when
    it is left; both start as [None]. *)
Fixpoint find_in_languages (transcript_list : TList)
         (languages : list string) : option Track * option string :=
  match languages with
  | [] => (None, None)
  | preferred_lang :: rest =>
      match try_language transcript_list preferred_lang with
      | Some t => (Some t, Some preferred_lang)
      | None => find_in_languages transcript_list rest
      end
  end.

(** The body of the [try] block, given the language list and the
    cache key: the cache after it and the returned dict, or the
    exception that leaves the block. *)
Definition fetch_transcript (ttl : Z) (now_set : Z)
           (cache : Cache Payload) (video : string)
           (languages : list string) (format : string)
           (cache_key request_id : string)
  : Cache Payload * result Payload :=
  match list_transcripts P video with
  | Raise e => (cache, Raise e)
  | Ok transcript_list =>
      match find_in_languages transcript_list languages with
      | (None, _) => (cache, Raise NoTranscriptFound)
      | (Some transcript, lang_used) =>
          match fetch P transcript with
          | Raise e => (cache, Raise e)
          | Ok transcript_data =>
              let full_text :=
                String.concat " " (map item_text transcript_data) in
              let res :=
                mkPayload video full_text
                          (Some (or_else lang_used "unknown"))
                          (if String.eqb format "json"
                           then Some (map segment_of transcript_data)
                           else None)
                          request_id in
              let cache' := set_cache ttl cache cache_key res now_set in
              (cache',
               Ok (if String.eqb format "text"
                   then text_only res request_id
                   else res))
          end
      end
  end.

(** [get_transcript]; [now_get] is the clock reading inside
    [get_from_cache], [now_set] the one inside [set_cache].  A cached dict
    always has the key [video_id], so [if cached_result:] holds exactly
    when [get_from_cache] returned a dict. *)
Definition get_transcript (cfg : Config) (now_get now_set : Z)
           (cache : Cache Payload) (rq : Request)
  : Cache Payload * (HTTPException + Payload) :=
  let request_id := req_request_id rq in
  if unauthorized (API_KEY cfg) (req_x_api_key rq) then
    (cache, inl (mkHTTP 401 "unauthorized" None None None))
  else if negb (String.eqb (req_format rq) "text"
                || String.eqb (req_format rq) "json") then
    (cache, inl (mkHTTP 400 "invalid_format"
                        (Some "Formato deve ser 'text' ou 'json'")
                        None None))
  else
    let languages := languages_of (req_lang rq) in
    let cache_key :=
      get_cache_key (req_video_id rq) (String.concat "," languages) in
    match get_from_cache cache cache_key now_get with
    | (Some cached_result, cache1) =>
        let res := with_request_id cached_result request_id in
        (cache1,
         inr (if String.eqb (req_format rq) "text"
              then text_only res request_id
              else res))
    | (None, cache1) =>
        match fetch_transcript (CACHE_TTL_SECONDS cfg) now_set cache1
                (req_video_id rq) languages (req_format rq)
                cache_key request_id with
        | (cache2, Ok r) => (cache2, inr r)
        | (cache2, Raise e) => (cache2, inl (handle e request_id))
        end
    end.

End Resolver.

(** A provider over a fixed catalogue, for concrete runs: a catalogue is
    the list of its tracks, a track a language code with its entries.
    [find_transcript] returns the first track whose code is among the
    requested ones; [translate] succeeds exactly for the codes listed in
    [translatable]. *)
Definition Catalogue := list (string * list Item).

Fixpoint lookup_track (tracks : Catalogue) (codes : list string)
  : result (string * list Item) :=
  match tracks with
  | [] => Raise NoTranscriptFound
  | tr :: r => if PyDict.mem (fst tr) codes then Ok tr else lookup_track r codes
  end.

Definition catalogue_provider (videos : list (string * Catalogue))
           (translatable : list string)
  : Provider Catalogue (string * list Item) :=
  mkProvider Catalogue (string * list Item)
    (fun v => match PyDict.get v videos with
              | Some c => Ok c
              | None => Raise VideoUnavailable
              end)
    lookup_track
    (fun c => Ok c)
    (fun tr code => if PyDict.mem code translatable
                    then Ok (code, snd tr)
                    else Raise (OtherError "not translatable"))
    (fun tr => Ok (snd tr)).

(** The value of [cache_key] in [get_transcript], for use in statements. *)
Definition cache_key_of (video : string) (lang : option string) : string :=
  get_cache_key video (String.concat "," (languages_of lang)).

(** The cache after a sequence of [set_cache] calls, one state per call. *)
Fixpoint run_puts {Data : Type} (ttl : Z) (cache : Cache Data)
         (puts : list (string * Data * Z)) : list (Cache Data) :=
  match puts with
  | [] => []
  | (key, d, now) :: r =>
      let cache' := set_cache ttl cache key d now in
      cache' :: run_puts ttl cache' r
  end.

(** The number of distinct keys of a dict. *)
Definition distinct_keys {V : Type} (d : PyDict.t V) : nat :=
  List.length (nodup string_dec (PyDict.keys d)).

(** A cache filled to capacity by 256 calls of [set_cache] with the keys
    [k0] ... [k255], the call for [k<i>] made at clock reading [i]. *)
Definition key_name (i : nat) : string :=
  "k" ++ NilEmpty.string_of_uint (Nat.to_uint i).

Definition full_cache : Cache unit :=
  fold_left (fun c i => set_cache 3600 c (key_name i) tt (Z.of_nat i))
            (seq 0 256) [].

(** What a candidate language can come to, in terms of the provider's
    answers.  A candidate wins with track [t] by an exact match, or, when
    the exact lookup raised [NoTranscriptFound] or [TranscriptsDisabled],
    by a translation of the first track of the catalogue. *)
Inductive candidate_wins {TList Track : Type} (P : Provider TList Track)
          (tl : TList) (l : string) (t : Track) : Prop :=
| wins_exact :
    find_transcript P tl [l] = Ok t ->
    candidate_wins P tl l t
| wins_translated (e : Exn) (first : Track) (rest : list Track) :
    find_transcript P tl [l] = Raise e ->
    not_found_or_disabled e = true ->
    list_of P tl = Ok (first :: rest) ->
    translate P first l = Ok t ->
    candidate_wins P tl l t.

(** A candidate fails when the exact lookup raises and either the
    exception is of another class (no translation is tried), or the
    catalogue cannot be listed or is empty, or the translation raises. *)
Inductive candidate_fails {TList Track : Type} (P : Provider TList Track)
          (tl : TList) (l : string) : Prop :=
| fails_other (e : Exn) :
    find_transcript P tl [l] = Raise e ->
    not_found_or_disabled e = false ->
    candidate_fails P tl l
| fails_listing (e e' : Exn) :
    find_transcript P tl [l] = Raise e ->
    not_found_or_disabled e = true ->
    list_of P tl = Raise e' ->
    candidate_fails P tl l
| fails_empty (e : Exn) :
    find_transcript P tl [l] = Raise e ->
    not_found_or_disabled e = true ->
    list_of P tl = Ok [] ->
    candidate_fails P tl l
| fails_translation (e e' : Exn) (first : Track) (rest : list Track) :
    find_transcript P tl [l] = Raise e ->
    not_found_or_disabled e = true ->
    list_of P tl = Ok (first :: rest) ->
    translate P first l = Raise e' ->
    candidate_fails P tl l.

(** Concrete data for runs of the endpoint: one video [abc]. *)
Definition demo_items : list Item :=
  [mkItem "A" 0 (Some 1); mkItem "B" 1 (Some 1); mkItem "C" 2 None].

(** A catalogue with a single German track, translatable into [xx]. *)
Definition german_provider : Provider Catalogue (string * list Item) :=
  catalogue_provider [("abc", [("de", demo_items)])] ["xx"].

(** A catalogue with a single English track and no translation. *)
Definition english_provider : Provider Catalogue (string * list Item) :=
  catalogue_provider [("abc", [("en", demo_items)])] [].

(** A catalogue with a single Japanese track and no translation. *)
Definition japanese_provider : Provider Catalogue (string * list Item) :=
  catalogue_provider [("abc", [("ja", demo_items)])] [].

(** A cache whose only entry, for the default languages of [abc], expired
    at clock reading 5. *)
Definition stale_cache : Cache Payload :=
  [("abc:pt-BR,pt,pt-PT,en",
    mkEntry (mkPayload "abc" "old" (Some "en") None "r0") 5)].

(** The cache left by a [text] request for [abc] with the default
    languages, served by [english_provider] and stored at clock reading 1. *)
Definition text_filled_cache : Cache Payload :=
  [("abc:pt-BR,pt,pt-PT,en",
    mkEntry (mkPayload "abc" "A B C" (Some "en") None "r1")
            (1 + timedelta_seconds 3600))].

Definition demo_segments : list Segment :=
  [mkSegment "A" 0 1; mkSegment "B" 1 1; mkSegment "C" 2 0].

(** [verify_api_key(x_api_key)]: [Some h] when it raises the
    [HTTPException] [h], [None] when it returns. *)
Definition verify_api_key (api_key : string) (x_api_key : option string)
  : option HTTPException :=
  if truthy api_key then
    match x_api_key with
    | None => Some (mkHTTP 401 "unauthorized" None None None)
    | Some k =>
        if negb (truthy k) || negb (String.eqb k api_key)
        then Some (mkHTTP 401 "unauthorized" None None None)
        else None
    end
  else None.

(** One use of the cache: a read or a write, with its clock reading. *)
Inductive cache_op (Data : Type) :=
| OpGet (key : string) (now : Z)
| OpSet (key : string) (d : Data) (now : Z).
Arguments OpGet {Data} key now.
Arguments OpSet {Data} key d now.

(** The cache after each of a sequence of reads and writes. *)
Fixpoint run_ops {Data : Type} (ttl : Z) (cache : Cache Data)
         (ops : list (cache_op Data)) : list (Cache Data) :=
  match ops with
  | [] => []
  | OpGet key now :: r =>
      let cache' := snd (get_from_cache cache key now) in
      cache' :: run_ops ttl cache' r
  | OpSet key d now :: r =>
      let cache' := set_cache ttl cache key d now in
      cache' :: run_ops ttl cache' r
  end.

(** One call of the endpoint as the server sees it: the answers of the
    provider at that moment, the two clock readings and the request. *)
Record Call (TList Track : Type) := mkCall {
  call_provider : Provider TList Track;
  call_now_get : Z;
  call_now_set : Z;
  call_request : Request
}.
Arguments call_provider {TList Track}.
Arguments call_now_get {TList Track}.
Arguments call_now_set {TList Track}.
Arguments call_request {TList Track}.

(** The cache after each of a sequence of calls of [get_transcript]. *)
Fixpoint serve {TList Track : Type} (cfg : Config) (cache : Cache Payload)
         (calls : list (Call TList Track)) : list (Cache Payload) :=
  match calls with
  | [] => []
  | c :: r =>
      let cache' := fst (get_transcript (call_provider c) cfg
                           (call_now_get c) (call_now_set c) cache
                           (call_request c)) in
      cache' :: serve cfg cache' r
  end.

(** [ch in s] for a character [ch]. *)
Fixpoint has_char (ch : ascii) (s : string) : bool :=
  match s with
  | EmptyString => false
  | String a r => Ascii.eqb a ch || has_char ch r
  end.

(** The same request sent again under another [request_id]. *)
Definition resend (rq : Request) (request_id : string) : Request :=
  mkRequest (req_video_id rq) (req_lang rq) (req_format rq)
            (req_x_api_key rq) request_id.

(** [s.split(sep)] for a one-character separator: the first word and
    the words after it. *)
Fixpoint split_words (sep : ascii) (s : string) : string * list string :=
  match s with
  | EmptyString => (EmptyString, [])
  | String a r =>
      let (w, ws) := split_words sep r in
      if Ascii.eqb a sep then (EmptyString, w :: ws) else (String a w, ws)
  end.

Definition py_split (sep : ascii) (s : string) : list string :=
  let (w, ws) := split_words sep s in w :: ws.

(** The module-level [cors_origins], from the stripped environment value
    [CORS_ORIGINS]. *)
Definition cors_origins (CORS_ORIGINS : string) : list string :=
  if negb (String.eqb CORS_ORIGINS "*")
  then py_split "," CORS_ORIGINS
  else ["*"].

(** The [allow_origins] argument given to the CORS middleware. *)
Definition allow_origins (CORS_ORIGINS : string) : list string :=
  if negb (String.eqb CORS_ORIGINS "*")
  then cors_origins CORS_ORIGINS
  else ["*"].

(** ** Dictionary lemmas *)

Section DictFacts.
Context {V : Type}.
Implicit Types (d : PyDict.t V) (k : string) (v : V).

Lemma get_set_same k v d : PyDict.get k (PyDict.set k v d) = Some v.
Proof.
  induction d as [|[k' v'] r IH]; simpl.
  - now rewrite String.eqb_refl.
  - destruct (String.eqb_spec k k') as [->|Hne]; simpl.
    + now rewrite String.eqb_refl.
    + destruct (String.eqb_spec k k'); [contradiction | exact IH].
Qed.

Lemma get_set_other k k' v d :
  k' <> k -> PyDict.get k' (PyDict.set k v d) = PyDict.get k' d.
Proof.
  intros Hne. induction d as [|[k0 v0] r IH]; simpl.
  - destruct (String.eqb_spec k' k); [contradiction | reflexivity].
  - destruct (String.eqb_spec k k0) as [->|Hk]; simpl.
    + destruct (String.eqb_spec k' k0); [contradiction | reflexivity].
    + destruct (String.eqb_spec k' k0); [reflexivity | exact IH].
Qed.

Lemma get_del_other k k' d :
  k' <> k -> PyDict.get k' (PyDict.del k d) = PyDict.get k' d.
Proof.
  intros Hne. induction d as [|[k0 v0] r IH]; simpl; [reflexivity|].
  destruct (String.eqb_spec k k0) as [->|Hk]; simpl.
  - destruct (String.eqb_spec k' k0); [contradiction | reflexivity].
  - destruct (String.eqb_spec k' k0); [reflexivity | exact IH].
Qed.

Lemma mem_keys_get k d :
  PyDict.mem k (PyDict.keys d) = PyDict.contains k d.
Proof.
  unfold PyDict.contains.
  induction d as [|[k0 v0] r IH]; simpl; [reflexivity|].
  destruct (String.eqb k k0); simpl; [reflexivity | exact IH].
Qed.

Lemma mem_false_get k d :
  PyDict.mem k (PyDict.keys d) = false -> PyDict.get k d = None.
Proof.
  rewrite mem_keys_get. unfold PyDict.contains.
  destruct (PyDict.get k d); [discriminate | reflexivity].
Qed.

Lemma get_del_same k d :
  PyDict.wf d -> PyDict.get k (PyDict.del k d) = None.
Proof.
  unfold PyDict.wf.
  induction d as [|[k0 v0] r IH]; simpl; intros Hwf; [reflexivity|].
  apply andb_prop in Hwf as [Hm Hu].
  destruct (String.eqb_spec k k0) as [->|Hk]; simpl.
  - apply mem_false_get. now apply negb_true_iff.
  - destruct (String.eqb_spec k k0); [contradiction | now apply IH].
Qed.

Lemma mem_keys_del k k' d :
  PyDict.mem k' (PyDict.keys d) = false ->
  PyDict.mem k' (PyDict.keys (PyDict.del k d)) = false.
Proof.
  induction d as [|[k0 v0] r IH]; simpl; [reflexivity|].
  intros H. apply orb_false_iff in H as [H1 H2].
  destruct (String.eqb k k0); simpl; [exact H2|].
  rewrite H1. simpl. now apply IH.
Qed.

Lemma wf_del k d : PyDict.wf d -> PyDict.wf (PyDict.del k d).
Proof.
  unfold PyDict.wf.
  induction d as [|[k0 v0] r IH]; simpl; intros Hwf; [reflexivity|].
  apply andb_prop in Hwf as [Hm Hu].
  destruct (String.eqb k k0); simpl; [exact Hu|].
  apply andb_true_intro. split; [|now apply IH].
  apply negb_true_iff. apply mem_keys_del. now apply negb_true_iff.
Qed.

Lemma mem_keys_set k k' v d :
  k' <> k ->
  PyDict.mem k' (PyDict.keys (PyDict.set k v d)) =
  PyDict.mem k' (PyDict.keys d).
Proof.
  intros Hne. induction d as [|[k0 v0] r IH]; simpl.
  - destruct (String.eqb_spec k' k); [contradiction | reflexivity].
  - destruct (String.eqb_spec k k0) as [->|Hk]; simpl; [reflexivity|].
    now rewrite IH.
Qed.

Lemma wf_set k v d : PyDict.wf d -> PyDict.wf (PyDict.set k v d).
Proof.
  unfold PyDict.wf.
  induction d as [|[k0 v0] r IH]; simpl; intros Hwf; [reflexivity|].
  apply andb_prop in Hwf as [Hm Hu].
  destruct (String.eqb_spec k k0) as [->|Hk]; simpl.
  - now rewrite Hm, Hu.
  - rewrite mem_keys_set by congruence. rewrite Hm. simpl. now apply IH.
Qed.

Lemma len_set k v d :
  PyDict.len (PyDict.set k v d) =
  if PyDict.contains k d then PyDict.len d else S (PyDict.len d).
Proof.
  unfold PyDict.contains, PyDict.len.
  induction d as [|[k0 v0] r IH]; simpl; [reflexivity|].
  destruct (String.eqb k k0); simpl; [reflexivity|].
  rewrite IH. now destruct (PyDict.get k r).
Qed.

Lemma len_del k d :
  PyDict.contains k d = true ->
  S (PyDict.len (PyDict.del k d)) = PyDict.len d.
Proof.
  unfold PyDict.contains, PyDict.len.
  induction d as [|[k0 v0] r IH]; simpl; [discriminate|].
  destruct (String.eqb k k0); simpl; [reflexivity|].
  intros H. now rewrite IH.
Qed.

Lemma set_absent k v d :
  PyDict.get k d = None -> PyDict.set k v d = (d ++ [(k, v)])%list.
Proof.
  induction d as [|[k0 v0] r IH]; simpl; [reflexivity|].
  destruct (String.eqb k k0); [discriminate|].
  intros H. now rewrite IH.
Qed.

Lemma In_get k v d :
  PyDict.wf d -> In (k, v) d -> PyDict.get k d = Some v.
Proof.
  unfold PyDict.wf.
  induction d as [|[k0 v0] r IH]; simpl; intros Hwf Hin; [contradiction|].
  apply andb_prop in Hwf as [Hm Hu]. apply negb_true_iff in Hm.
  destruct Hin as [Heq|Hin].
  - inversion Heq; subst. now rewrite String.eqb_refl.
  - destruct (String.eqb_spec k k0) as [->|Hk]; [|now apply IH].
    apply mem_false_get in Hm. rewrite (IH Hu Hin) in Hm. discriminate.
Qed.

Lemma get_In k v d : PyDict.get k d = Some v -> In (k, v) d.
Proof.
  induction d as [|[k0 v0] r IH]; simpl; [discriminate|].
  destruct (String.eqb_spec k k0) as [->|Hk].
  - intros [= ->]. now left.
  - intros H. right. now apply IH.
Qed.

Lemma mem_In k (l : list string) : PyDict.mem k l = true <-> In k l.
Proof.
  induction l as [|k0 r IH]; simpl; [split; [discriminate | contradiction]|].
  rewrite orb_true_iff, IH, String.eqb_eq. intuition congruence.
Qed.

Lemma unique_NoDup (l : list string) : PyDict.unique l = true -> NoDup l.
Proof.
  induction l as [|k0 r IH]; simpl; intros H; [constructor|].
  apply andb_prop in H as [Hm Hu]. constructor; [|now apply IH].
  intros Hin. apply mem_In in Hin. rewrite Hin in Hm. discriminate.
Qed.

Lemma distinct_keys_wf d : PyDict.wf d -> distinct_keys d = PyDict.len d.
Proof.
  intros Hwf. unfold distinct_keys, PyDict.len.
  rewrite nodup_fixed_point by now apply unique_NoDup.
  apply length_map.
Qed.

End DictFacts.

(** ** The scan for the minimum *)

Section MinFacts.
Context {A : Type} (f : A -> Z).

Lemma min_from_In best xs : In (min_from f best xs) (best :: xs).
Proof.
  revert best. induction xs as [|x r IH]; intros best; simpl; [now left|].
  destruct (f x <? f best).
  - destruct (IH x) as [<-|H]; [right; now left | right; now right].
  - destruct (IH best) as [<-|H]; [now left | right; now right].
Qed.

Lemma min_from_le_best best xs : f (min_from f best xs) <= f best.
Proof.
  revert best. induction xs as [|x r IH]; intros best; simpl; [lia|].
  destruct (Z.ltb_spec (f x) (f best)); [specialize (IH x); lia | apply IH].
Qed.

Lemma min_from_le best xs y :
  In y (best :: xs) -> f (min_from f best xs) <= f y.
Proof.
  revert best. induction xs as [|x r IH]; intros best Hin; simpl.
  - destruct Hin as [<-|[]]. lia.
  - destruct Hin as [<-|[<-|Hin]].
    + destruct (Z.ltb_spec (f x) (f best)).
      * pose proof (min_from_le_best x r). lia.
      * apply min_from_le_best.
    + destruct (Z.ltb_spec (f x) (f best)).
      * apply min_from_le_best.
      * pose proof (min_from_le_best best r). lia.
    + destruct (f x <? f best); apply IH; now right.
Qed.

Lemma py_min_spec xs m :
  py_min f xs = Some m -> In m xs /\ forall y, In y xs -> f m <= f y.
Proof.
  destruct xs as [|x r]; simpl; [discriminate|].
  intros [= <-]. split; [apply min_from_In | apply min_from_le].
Qed.

End MinFacts.

(** ** Cache lemmas *)

Section CacheFacts.
Context {Data : Type}.
Implicit Types (cache c : Cache Data) (key k : string) (d : Data).

(** At capacity the dict is not empty, so [min] does not raise and the
    key it returns is bound to an entry of least expiry. *)
Lemma oldest_key_full c :
  (CACHE_MAX_SIZE <= PyDict.len c)%nat ->
  exists k0 e0,
    oldest_key c = Some k0 /\ In (k0, e0) c /\
    forall k e, In (k, e) c -> expires_at e0 <= expires_at e.
Proof.
  intros Hfull. unfold oldest_key.
  destruct (py_min (fun kv => expires_at (snd kv)) c) as [[k0 e0]|] eqn:Hmin.
  - apply py_min_spec in Hmin as [Hin Hle].
    exists k0, e0. repeat split; [exact Hin|].
    intros k e Hke. exact (Hle (k, e) Hke).
  - destruct c; [|discriminate].
    unfold CACHE_MAX_SIZE, PyDict.len in Hfull. simpl in Hfull. lia.
Qed.

Lemma In_contains k (e : Entry Data) c :
  In (k, e) c -> PyDict.contains k c = true.
Proof.
  unfold PyDict.contains.
  induction c as [|[k0 e0] r IH]; simpl; [contradiction|].
  intros [Heq|Hin].
  - inversion Heq; subst. now rewrite String.eqb_refl.
  - destruct (String.eqb k k0); [reflexivity | now apply IH].
Qed.

Lemma set_cache_below ttl c key d now :
  (PyDict.len c < CACHE_MAX_SIZE)%nat ->
  set_cache ttl c key d now =
  PyDict.set key (mkEntry d (now + timedelta_seconds ttl)) c.
Proof.
  intros Hlt. unfold set_cache.
  destruct (Nat.leb_spec CACHE_MAX_SIZE (PyDict.len c)); [lia | reflexivity].
Qed.

Lemma set_cache_full ttl c key d now k0 :
  (CACHE_MAX_SIZE <= PyDict.len c)%nat ->
  oldest_key c = Some k0 ->
  set_cache ttl c key d now =
  PyDict.set key (mkEntry d (now + timedelta_seconds ttl)) (PyDict.del k0 c).
Proof.
  intros Hfull Hk0. unfold set_cache.
  destruct (Nat.leb_spec CACHE_MAX_SIZE (PyDict.len c)); [|lia].
  now rewrite Hk0.
Qed.

Lemma set_cache_wf ttl c key d now :
  PyDict.wf c -> PyDict.wf (set_cache ttl c key d now).
Proof.
  intros Hwf. unfold set_cache. apply wf_set.
  destruct (CACHE_MAX_SIZE <=? PyDict.len c)%nat; [|exact Hwf].
  destruct (oldest_key c); [now apply wf_del | exact Hwf].
Qed.

Lemma set_cache_len ttl c key d now :
  (PyDict.len c <= CACHE_MAX_SIZE)%nat ->
  (PyDict.len (set_cache ttl c key d now) <= CACHE_MAX_SIZE)%nat.
Proof.
  intros Hle.
  destruct (Nat.leb_spec CACHE_MAX_SIZE (PyDict.len c)) as [Hfull|Hlt].
  - destruct (oldest_key_full c Hfull) as (k0 & e0 & Hk0 & Hin & _).
    rewrite (set_cache_full _ _ _ _ _ k0 Hfull Hk0), len_set.
    pose proof (len_del k0 c (In_contains _ _ _ Hin)).
    destruct (PyDict.contains key (PyDict.del k0 c)); lia.
  - rewrite set_cache_below by exact Hlt. rewrite len_set.
    destruct (PyDict.contains key c); lia.
Qed.

Lemma run_puts_invariant ttl c puts :
  PyDict.wf c -> (PyDict.len c <= CACHE_MAX_SIZE)%nat ->
  Forall (fun c' => PyDict.wf c' /\ (PyDict.len c' <= CACHE_MAX_SIZE)%nat)
         (run_puts ttl c puts).
Proof.
  revert c. induction puts as [|[[key d] now] r IH]; intros c Hwf Hle; simpl.
  - constructor.
  - pose proof (set_cache_wf ttl c key d now Hwf) as Hwf'.
    pose proof (set_cache_len ttl c key d now Hle) as Hle'.
    constructor; [now split | now apply IH].
Qed.

Lemma get_from_cache_shrinks c key now :
  snd (get_from_cache c key now) = c \/
  (snd (get_from_cache c key now) = PyDict.del key c /\
   exists e, PyDict.get key c = Some e /\ now > expires_at e).
Proof.
  unfold get_from_cache.
  destruct (PyDict.get key c) as [e|] eqn:Hget; simpl; [|now left].
  destruct (Z.gtb_spec now (expires_at e)); simpl; [|now left].
  right. split; [reflexivity|]. exists e. split; [reflexivity | lia].
Qed.

Lemma get_del_sub k key c (e : Entry Data) :
  PyDict.wf c ->
  PyDict.get k (PyDict.del key c) = Some e -> PyDict.get k c = Some e.
Proof.
  intros Hwf. destruct (String.eqb_spec k key) as [->|Hne].
  - now rewrite get_del_same.
  - now rewrite get_del_other.
Qed.

End CacheFacts.

(** ** Properties of the cache *)

(** C2 (cache capacity invariant).  After each call of a sequence of
    [set_cache] calls that starts from the empty cache, the dict binds no
    key twice and the number of distinct keys is at most
    [CACHE_MAX_SIZE] = 256. *)
Theorem cache_capacity_invariant :
  forall (Data : Type) (ttl : Z) (puts : list (string * Data * Z)),
    Forall (fun c => PyDict.wf c /\
                     (distinct_keys c <= 256)%nat /\
                     (PyDict.len c <= CACHE_MAX_SIZE)%nat)
           (run_puts ttl [] puts).
Proof.
  intros Data ttl puts.
  assert (H0 : PyDict.wf (@nil (string * Entry Data))) by reflexivity.
  assert (H1 : (PyDict.len (@nil (string * Entry Data)) <= CACHE_MAX_SIZE)%nat)
    by (unfold PyDict.len, CACHE_MAX_SIZE; simpl; lia).
  pose proof (run_puts_invariant ttl [] puts H0 H1) as Hinv.
  eapply Forall_impl; [|exact Hinv].
  intros c [Hwf Hle]. repeat split; try assumption.
  rewrite distinct_keys_wf by exact Hwf. exact Hle.
Qed.

(** C3 (eviction correctness).  When [set_cache] is called with a key
    that is not in the cache while the cache holds [CACHE_MAX_SIZE]
    entries or more, exactly one binding [k0] is removed before the new
    one is appended, its expiry is least among all entries present before
    the call, and every other binding is kept. *)
Theorem eviction_removes_min_expiry :
  forall (Data : Type) (ttl : Z) (c : Cache Data) (key : string) (d : Data)
         (now : Z),
    PyDict.wf c ->
    (CACHE_MAX_SIZE <= PyDict.len c)%nat ->
    PyDict.get key c = None ->
    exists k0 e0,
      PyDict.get k0 c = Some e0 /\
      (forall k e, PyDict.get k c = Some e -> expires_at e0 <= expires_at e) /\
      set_cache ttl c key d now =
        (PyDict.del k0 c ++
         [(key, mkEntry d (now + timedelta_seconds ttl))])%list /\
      PyDict.get k0 (set_cache ttl c key d now) = None /\
      (forall k, k <> k0 -> k <> key ->
                 PyDict.get k (set_cache ttl c key d now) = PyDict.get k c) /\
      PyDict.len (set_cache ttl c key d now) = PyDict.len c.
Proof.
  intros Data ttl c key d now Hwf Hfull Hnew.
  destruct (oldest_key_full c Hfull) as (k0 & e0 & Hk0 & Hin & Hmin).
  assert (Hget0 : PyDict.get k0 c = Some e0) by now apply In_get.
  assert (Hne : k0 <> key) by (intros ->; congruence).
  assert (Hnew' : PyDict.get key (PyDict.del k0 c) = None)
    by (rewrite get_del_other; [exact Hnew | congruence]).
  exists k0, e0.
  rewrite (set_cache_full ttl c key d now k0 Hfull Hk0).
  repeat split.
  - exact Hget0.
  - intros k e Hke. apply (Hmin k e). now apply get_In.
  - now apply set_absent.
  - rewrite get_set_other by exact Hne. now apply get_del_same.
  - intros k Hk0' Hkey. rewrite get_set_other by exact Hkey.
    now apply get_del_other.
  - rewrite len_set. unfold PyDict.contains. rewrite Hnew'.
    apply len_del. now apply (In_contains _ e0).
Qed.

Lemma full_cache_wf : PyDict.wf full_cache.
Proof. vm_compute. reflexivity. Qed.

Lemma full_cache_len : PyDict.len full_cache = CACHE_MAX_SIZE.
Proof. vm_compute. reflexivity. Qed.

Lemma eviction_removes_min_expiry_witness :
  exists k0 e0,
    PyDict.get k0 full_cache = Some e0 /\
    (forall k e, PyDict.get k full_cache = Some e ->
                 expires_at e0 <= expires_at e) /\
    set_cache 3600 full_cache "v:en" tt 1000 =
      (PyDict.del k0 full_cache ++
       [("v:en", mkEntry tt (1000 + timedelta_seconds 3600))])%list /\
    PyDict.get k0 (set_cache 3600 full_cache "v:en" tt 1000) = None /\
    (forall k, k <> k0 -> k <> "v:en" ->
               PyDict.get k (set_cache 3600 full_cache "v:en" tt 1000) =
               PyDict.get k full_cache) /\
    PyDict.len (set_cache 3600 full_cache "v:en" tt 1000) =
    PyDict.len full_cache.
Proof.
  apply (eviction_removes_min_expiry unit 3600 full_cache "v:en" tt 1000).
  - vm_compute. reflexivity.
  - rewrite full_cache_len. apply le_n.
  - vm_compute. reflexivity.
Defined.

(** C4, as stated, fails: [set_cache] tests only [len(cache)], not
    whether the key is present.  On the full cache, overwriting the
    present key [k255] removes the entry of the other key [k0]. *)
Lemma put_present_key_evicts_another :
  PyDict.wf full_cache /\
  PyDict.contains "k255" full_cache = true /\
  "k0" <> "k255" /\
  PyDict.get "k0" full_cache = Some (mkEntry tt (0 + timedelta_seconds 3600)) /\
  PyDict.get "k0" (set_cache 3600 full_cache "k255" tt 1000) = None /\
  PyDict.get "k0" (set_cache 3600 full_cache "k255" tt 1000) <>
  PyDict.get "k0" full_cache.
Proof.
  split; [exact full_cache_wf|].
  split; [vm_compute; reflexivity|].
  split; [discriminate|].
  split; [vm_compute; reflexivity|].
  split; [vm_compute; reflexivity|].
  vm_compute. discriminate.
Qed.

(** C4 (amended: the eviction guard).  Eviction depends on the size of
    the cache alone.  Below [CACHE_MAX_SIZE] entries a call of
    [set_cache] leaves the entry of every other key unchanged, whether or
    not its own key is present; at [CACHE_MAX_SIZE] entries or more it
    removes a binding of least expiry before the assignment, again whether
    or not its own key is present. *)
Theorem set_cache_eviction_guard :
  forall (Data : Type) (ttl : Z) (c : Cache Data) (key : string) (d : Data)
         (now : Z),
    PyDict.wf c ->
    ((PyDict.len c < CACHE_MAX_SIZE)%nat ->
     forall k, k <> key ->
               PyDict.get k (set_cache ttl c key d now) = PyDict.get k c) /\
    ((CACHE_MAX_SIZE <= PyDict.len c)%nat ->
     exists k0 e0,
       PyDict.get k0 c = Some e0 /\
       (forall k e, PyDict.get k c = Some e ->
                    expires_at e0 <= expires_at e) /\
       set_cache ttl c key d now =
         PyDict.set key (mkEntry d (now + timedelta_seconds ttl))
                    (PyDict.del k0 c) /\
       (k0 <> key -> PyDict.get k0 (set_cache ttl c key d now) = None)).
Proof.
  intros Data ttl c key d now Hwf. split.
  - intros Hlt k Hne. rewrite set_cache_below by exact Hlt.
    now apply get_set_other.
  - intros Hfull.
    destruct (oldest_key_full c Hfull) as (k0 & e0 & Hk0 & Hin & Hmin).
    exists k0, e0.
    rewrite (set_cache_full ttl c key d now k0 Hfull Hk0).
    repeat split.
    + now apply In_get.
    + intros k e Hke. apply (Hmin k e). now apply get_In.
    + intros Hne. rewrite get_set_other by exact Hne.
      now apply get_del_same.
Qed.

Lemma set_cache_eviction_guard_witness :
  (forall k, k <> "v:en" ->
     PyDict.get k (set_cache 3600 [("v:en", mkEntry tt 5); ("v:pt", mkEntry tt 7)]
                             "v:en" tt 1000) =
     PyDict.get k [("v:en", mkEntry tt 5); ("v:pt", mkEntry tt 7)]) /\
  (exists k0 e0,
     PyDict.get k0 full_cache = Some e0 /\
     (forall k e, PyDict.get k full_cache = Some e ->
                  expires_at e0 <= expires_at e) /\
     set_cache 3600 full_cache "k255" tt 1000 =
       PyDict.set "k255" (mkEntry tt (1000 + timedelta_seconds 3600))
                  (PyDict.del k0 full_cache) /\
     (k0 <> "k255" ->
      PyDict.get k0 (set_cache 3600 full_cache "k255" tt 1000) = None)).
Proof.
  split.
  - apply (set_cache_eviction_guard unit 3600
             [("v:en", mkEntry tt 5); ("v:pt", mkEntry tt 7)] "v:en" tt 1000).
    + vm_compute. reflexivity.
    + apply Nat.ltb_lt. vm_compute. reflexivity.
  - apply (set_cache_eviction_guard unit 3600 full_cache "k255" tt 1000).
    + vm_compute. reflexivity.
    + rewrite full_cache_len. apply le_n.
Defined.

(** C5, as stated, fails at the boundary: [get_from_cache] drops an
    entry only when [datetime.now() > expires_at], so a query made exactly
    at [T + ttl] still returns the stored value. *)
Lemma get_at_expiry_still_hits :
  3600000000 >= 0 + timedelta_seconds 3600 /\
  get_from_cache (set_cache 3600 [] "v:en" tt 0) "v:en" 3600000000 =
  (Some tt, [("v:en", mkEntry tt 3600000000)]).
Proof. split; [vm_compute; discriminate | vm_compute; reflexivity]. Qed.

(** C5 (amended: TTL correctness).  A key stored at clock reading [T]
    gets the expiry [T + ttl]; as long as that entry is in the cache,
    [get_from_cache] returns its value and leaves the cache unchanged for
    every query time [now <= T + ttl], and for every [now > T + ttl] it
    deletes the entry and returns [None]. *)
Theorem ttl_correctness :
  forall (Data : Type) (ttl : Z) (c0 : Cache Data) (key : string) (d : Data)
         (T : Z) (c : Cache Data) (now : Z),
    PyDict.get key c = PyDict.get key (set_cache ttl c0 key d T) ->
    PyDict.get key c = Some (mkEntry d (T + timedelta_seconds ttl)) /\
    (now <= T + timedelta_seconds ttl ->
     get_from_cache c key now = (Some d, c)) /\
    (now > T + timedelta_seconds ttl ->
     get_from_cache c key now = (None, PyDict.del key c)).
Proof.
  intros Data ttl c0 key d T c now Hsame.
  assert (Hget : PyDict.get key c =
                 Some (mkEntry d (T + timedelta_seconds ttl))).
  { rewrite Hsame. unfold set_cache. apply get_set_same. }
  split; [exact Hget|]. unfold get_from_cache. rewrite Hget. simpl.
  split; intros Hnow.
  - destruct (Z.gtb_spec now (T + timedelta_seconds ttl)); [lia | reflexivity].
  - destruct (Z.gtb_spec now (T + timedelta_seconds ttl)); [reflexivity | lia].
Qed.

Lemma ttl_correctness_witness :
  PyDict.get "v:en" (set_cache 3600 [] "v:en" tt 10) =
    Some (mkEntry tt (10 + timedelta_seconds 3600)) /\
  get_from_cache (set_cache 3600 [] "v:en" tt 10) "v:en" 3600000010 =
    (Some tt, set_cache 3600 [] "v:en" tt 10) /\
  get_from_cache (set_cache 3600 [] "v:en" tt 10) "v:en" 3600000011 =
    (None, PyDict.del "v:en" (set_cache 3600 [] "v:en" tt 10)).
Proof.
  pose proof (ttl_correctness unit 3600 [] "v:en" tt 10
                (set_cache 3600 [] "v:en" tt 10)) as H.
  split; [|split].
  - apply (H 0). reflexivity.
  - apply (H 3600000010); [reflexivity | vm_compute; discriminate].
  - apply (H 3600000011); [reflexivity | vm_compute; reflexivity].
Defined.

(** ** Resolver lemmas *)

Section ResolverFacts.
Context {TList Track : Type} (P : Provider TList Track).

Lemma try_language_wins tl l t :
  candidate_wins P tl l t -> try_language P tl l = Some t.
Proof.
  unfold try_language.
  intros [Hfind | e first rest Hfind He Hlist Htr].
  - now rewrite Hfind.
  - now rewrite Hfind, He, Hlist, Htr.
Qed.

Lemma try_language_wins_inv tl l t :
  try_language P tl l = Some t -> candidate_wins P tl l t.
Proof.
  unfold try_language.
  destruct (find_transcript P tl [l]) as [t0|e] eqn:Hfind.
  - intros [= <-]. now apply wins_exact.
  - destruct (not_found_or_disabled e) eqn:He; [|discriminate].
    destruct (list_of P tl) as [[|first rest]|e'] eqn:Hlist; try discriminate.
    destruct (translate P first l) as [t1|e'] eqn:Htr; [|discriminate].
    intros [= <-]. now apply (wins_translated P tl l t1 e first rest).
Qed.

Lemma try_language_fails tl l :
  candidate_fails P tl l -> try_language P tl l = None.
Proof.
  unfold try_language.
  intros [e Hf He | e e' Hf He Hl | e Hf He Hl | e e' first rest Hf He Hl Ht].
  - now rewrite Hf, He.
  - now rewrite Hf, He, Hl.
  - now rewrite Hf, He, Hl.
  - now rewrite Hf, He, Hl, Ht.
Qed.

Lemma try_language_fails_inv tl l :
  try_language P tl l = None -> candidate_fails P tl l.
Proof.
  unfold try_language.
  destruct (find_transcript P tl [l]) as [t0|e] eqn:Hfind; [discriminate|].
  destruct (not_found_or_disabled e) eqn:He.
  - destruct (list_of P tl) as [[|first rest]|e'] eqn:Hlist.
    + intros _. now apply (fails_empty P tl l e).
    + destruct (translate P first l) as [t1|e'] eqn:Htr; [discriminate|].
      intros _. now apply (fails_translation P tl l e e' first rest).
    + intros _. now apply (fails_listing P tl l e e').
  - intros _. now apply (fails_other P tl l e).
Qed.

Lemma find_in_languages_first tl pre l post t :
  Forall (candidate_fails P tl) pre ->
  candidate_wins P tl l t ->
  find_in_languages P tl (pre ++ l :: post)%list = (Some t, Some l).
Proof.
  intros Hpre Hwin. induction Hpre as [|l0 pre0 Hl0 _ IH]; simpl.
  - now rewrite (try_language_wins tl l t Hwin).
  - now rewrite (try_language_fails tl l0 Hl0).
Qed.

Lemma find_in_languages_none tl ls :
  Forall (candidate_fails P tl) ls ->
  find_in_languages P tl ls = (None, None).
Proof.
  induction 1 as [|l0 ls0 Hl0 _ IH]; simpl; [reflexivity|].
  now rewrite (try_language_fails tl l0 Hl0).
Qed.

Lemma find_in_languages_some tl ls t lu :
  find_in_languages P tl ls = (Some t, lu) ->
  exists l, lu = Some l /\ In l ls /\ candidate_wins P tl l t.
Proof.
  induction ls as [|l0 r IH]; simpl; [discriminate|].
  destruct (try_language P tl l0) as [t0|] eqn:Htry.
  - intros [= <- <-]. exists l0. repeat split; [now left|].
    now apply try_language_wins_inv.
  - intros H. destruct (IH H) as (l & Hlu & Hin & Hwin).
    exists l. repeat split; [exact Hlu | now right | exact Hwin].
Qed.

(** An exception leaves the [try] block before [set_cache] is reached. *)
Lemma fetch_transcript_raise ttl now_set cache video ls format key rid c' e :
  fetch_transcript P ttl now_set cache video ls format key rid
    = (c', Raise e) ->
  c' = cache.
Proof.
  unfold fetch_transcript.
  destruct (list_transcripts P video) as [tl|e0]; [|now intros [= <- _]].
  destruct (find_in_languages P tl ls) as [[t|] lu]; [|now intros [= <- _]].
  destruct (fetch P t) as [items|e0]; [discriminate | now intros [= <- _]].
Qed.

(** A normal exit of the [try] block: the dict that was stored. *)
Lemma fetch_transcript_ok ttl now_set cache video ls format key rid c' r :
  fetch_transcript P ttl now_set cache video ls format key rid
    = (c', Ok r) ->
  exists tl t l items,
    list_transcripts P video = Ok tl /\
    In l ls /\ candidate_wins P tl l t /\
    fetch P t = Ok items /\
    let res := mkPayload video (String.concat " " (map item_text items))
                         (Some (or_else (Some l) "unknown"))
                         (if String.eqb format "json"
                          then Some (map segment_of items) else None)
                         rid in
    c' = set_cache ttl cache key res now_set /\
    r = if String.eqb format "text" then text_only res rid else res.
Proof.
  unfold fetch_transcript.
  destruct (list_transcripts P video) as [tl|e0]; [|discriminate].
  destruct (find_in_languages P tl ls) as [[t|] lu] eqn:Hfind;
    [|discriminate].
  destruct (fetch P t) as [items|e0] eqn:Hfetch; [|discriminate].
  destruct (find_in_languages_some tl ls t lu Hfind) as (l & -> & Hin & Hwin).
  intros [= <- <-]. exists tl, t, l, items. now repeat split.
Qed.

End ResolverFacts.

Lemma languages_truthy lang l : In l (languages_of lang) -> truthy l = true.
Proof.
  unfold languages_of.
  assert (Hdef : In l ["pt-BR"; "pt"; "pt-PT"; "en"] -> truthy l = true).
  { simpl. intros [<-|[<-|[<-|[<-|[]]]]]; reflexivity. }
  destruct lang as [s|]; [|exact Hdef].
  destruct (truthy s) eqn:Hs; [|exact Hdef].
  intros [<-|[]]. exact Hs.
Qed.

Lemma or_else_truthy l default : truthy l = true -> or_else (Some l) default = l.
Proof. intros H. unfold or_else. now rewrite H. Qed.

(** ** Properties of the resolver *)

(** C6 (resolution order).  The languages are tried in order and, for
    each, the exact lookup comes before the translation of the first
    track, which is tried only after [NoTranscriptFound] or
    [TranscriptsDisabled] (see [candidate_wins], [candidate_fails]).  If
    every language before [l] fails and [l] wins with track [t], the loop
    leaves with [t] and [language_used = l]; once the content of [t] is
    fetched, [l] is the [language_used] of the dict that is cached and
    returned, whatever languages follow [l] in the list. *)
Theorem resolution_order :
  forall (TList Track : Type) (P : Provider TList Track) (tl : TList)
         (pre post : list string) (l : string) (t : Track)
         (ttl now_set : Z) (cache : Cache Payload)
         (video format key rid : string) (items : list Item),
    Forall (candidate_fails P tl) pre ->
    candidate_wins P tl l t ->
    truthy l = true ->
    list_transcripts P video = Ok tl ->
    fetch P t = Ok items ->
    find_in_languages P tl (pre ++ l :: post)%list = (Some t, Some l) /\
    exists c' r e,
      fetch_transcript P ttl now_set cache video (pre ++ l :: post)%list
                       format key rid = (c', Ok r) /\
      PyDict.get key c' = Some e /\
      language_used (data e) = Some l /\
      (String.eqb format "text" = false -> language_used r = Some l).
Proof.
  intros TList Track P tl pre post l t ttl now_set cache video format key rid
         items Hpre Hwin Hl Hlist Hfetch.
  pose proof (find_in_languages_first P tl pre l post t Hpre Hwin) as Hloop.
  split; [exact Hloop|].
  unfold fetch_transcript. rewrite Hlist, Hloop, Hfetch.
  rewrite (or_else_truthy l "unknown" Hl).
  eexists _, _, _. split; [reflexivity|]. split.
  - unfold set_cache. apply get_set_same.
  - split; [reflexivity|]. intros Hfmt. now rewrite Hfmt.
Qed.

Lemma resolution_order_witness :
  find_in_languages german_provider [("de", demo_items)] ["xx"; "en"]
    = (Some ("xx", demo_items), Some "xx") /\
  exists c' r e,
    fetch_transcript german_provider 3600 5 [] "abc" ["xx"; "en"]
                     "json" "abc:xx,en" "r1" = (c', Ok r) /\
    PyDict.get "abc:xx,en" c' = Some e /\
    language_used (data e) = Some "xx" /\
    (String.eqb "json" "text" = false -> language_used r = Some "xx").
Proof.
  apply (resolution_order Catalogue (string * list Item) german_provider
           [("de", demo_items)] [] ["en"] "xx" ("xx", demo_items)
           3600 5 [] "abc" "json" "abc:xx,en" "r1" demo_items).
  - constructor.
  - apply (wins_translated german_provider [("de", demo_items)] "xx"
             ("xx", demo_items) NoTranscriptFound ("de", demo_items) []);
      reflexivity.
  - reflexivity.
  - reflexivity.
  - reflexivity.
Defined.

Lemma get_transcript_miss {TList Track : Type} (P : Provider TList Track)
      cfg now_get now_set cache rq cache1 :
  unauthorized (API_KEY cfg) (req_x_api_key rq) = false ->
  negb (String.eqb (req_format rq) "text"
        || String.eqb (req_format rq) "json") = false ->
  get_from_cache cache (cache_key_of (req_video_id rq) (req_lang rq)) now_get
    = (None, cache1) ->
  get_transcript P cfg now_get now_set cache rq =
  match fetch_transcript P (CACHE_TTL_SECONDS cfg) now_set cache1
          (req_video_id rq) (languages_of (req_lang rq)) (req_format rq)
          (cache_key_of (req_video_id rq) (req_lang rq))
          (req_request_id rq) with
  | (cache2, Ok r) => (cache2, inr r)
  | (cache2, Raise e) => (cache2, inl (handle e (req_request_id rq)))
  end.
Proof.
  intros Hauth Hfmt Hget. unfold get_transcript, cache_key_of in *.
  now rewrite Hauth, Hfmt, Hget.
Qed.

(** C7 (exhaustion).  A request that passes the key and format checks,
    misses the cache and gets a catalogue in which every language of its
    list fails, ends in the 404 response with error [no_transcript]; the
    cache is the one left by [get_from_cache]. *)
Theorem exhaustion_is_no_transcript :
  forall (TList Track : Type) (P : Provider TList Track) (cfg : Config)
         (now_get now_set : Z) (cache : Cache Payload) (rq : Request)
         (tl : TList),
    unauthorized (API_KEY cfg) (req_x_api_key rq) = false ->
    req_format rq = "text" \/ req_format rq = "json" ->
    fst (get_from_cache cache (cache_key_of (req_video_id rq) (req_lang rq))
                        now_get) = None ->
    list_transcripts P (req_video_id rq) = Ok tl ->
    Forall (candidate_fails P tl) (languages_of (req_lang rq)) ->
    exists h,
      get_transcript P cfg now_get now_set cache rq =
        (snd (get_from_cache cache
                (cache_key_of (req_video_id rq) (req_lang rq)) now_get),
         inl h) /\
      h = handle NoTranscriptFound (req_request_id rq) /\
      status_code h = 404 /\ error h = "no_transcript".
Proof.
  intros TList Track P cfg now_get now_set cache rq tl
         Hauth Hfmt Hmiss Hlist Hfail.
  set (key := cache_key_of (req_video_id rq) (req_lang rq)) in *.
  exists (handle NoTranscriptFound (req_request_id rq)).
  split; [|now repeat split].
  assert (Hvalid : negb (String.eqb (req_format rq) "text"
                         || String.eqb (req_format rq) "json") = false).
  { destruct Hfmt as [-> | ->]; reflexivity. }
  destruct (get_from_cache cache key now_get) as [[hit|] cache1] eqn:Hget;
    [discriminate|].
  rewrite (get_transcript_miss P cfg now_get now_set cache rq cache1
             Hauth Hvalid Hget).
  unfold fetch_transcript. rewrite Hlist.
  now rewrite (find_in_languages_none P tl _ Hfail).
Qed.

Lemma exhaustion_is_no_transcript_witness :
  exists h,
    get_transcript japanese_provider default_config 0 1 []
                   (mkRequest "abc" None "json" None "r1") =
      (snd (get_from_cache [] "abc:pt-BR,pt,pt-PT,en" 0), inl h) /\
    h = handle NoTranscriptFound "r1" /\
    status_code h = 404 /\ error h = "no_transcript".
Proof.
  apply (exhaustion_is_no_transcript Catalogue (string * list Item)
           japanese_provider default_config 0 1 []
           (mkRequest "abc" None "json" None "r1") [("ja", demo_items)]).
  - reflexivity.
  - right. reflexivity.
  - reflexivity.
  - reflexivity.
  - repeat constructor;
      apply (fails_translation japanese_provider [("ja", demo_items)] _
               NoTranscriptFound (OtherError "not translatable")
               ("ja", demo_items) []); reflexivity.
Defined.

(** C8 (no cache write on failure).  When [get_transcript] ends in an
    [HTTPException], the cache is the one it started with, except that
    [get_from_cache] may have deleted the stale entry of the request's
    own key: [set_cache] has not run, and every entry of the final cache
    was already in the initial one. *)
Theorem no_cache_write_on_failure :
  forall (TList Track : Type) (P : Provider TList Track) (cfg : Config)
         (now_get now_set : Z) (cache cache' : Cache Payload) (rq : Request)
         (err : HTTPException),
    get_transcript P cfg now_get now_set cache rq = (cache', inl err) ->
    (cache' = cache \/
     cache' = PyDict.del (cache_key_of (req_video_id rq) (req_lang rq)) cache) /\
    (PyDict.len cache' <= PyDict.len cache)%nat /\
    (PyDict.wf cache ->
     forall k e, PyDict.get k cache' = Some e -> PyDict.get k cache = Some e).
Proof.
  intros TList Track P cfg now_get now_set cache cache' rq err Hrun.
  set (key := cache_key_of (req_video_id rq) (req_lang rq)).
  assert (Hshape : cache' = cache \/
                   (cache' = PyDict.del key cache /\
                    PyDict.contains key cache = true)).
  { unfold get_transcript in Hrun.
    destruct (unauthorized (API_KEY cfg) (req_x_api_key rq));
      [left; congruence|].
    destruct (negb (String.eqb (req_format rq) "text"
                    || String.eqb (req_format rq) "json"));
      [left; congruence|].
    fold (cache_key_of (req_video_id rq) (req_lang rq)) in Hrun. fold key in Hrun.
    pose proof (get_from_cache_shrinks cache key now_get) as Hshr.
    destruct (get_from_cache cache key now_get) as [[hit|] cache1];
      [discriminate|]. simpl in Hshr.
    destruct (fetch_transcript P (CACHE_TTL_SECONDS cfg) now_set cache1
                (req_video_id rq) (languages_of (req_lang rq))
                (req_format rq) key (req_request_id rq))
      as [cache2 [r|e]] eqn:Hfetch; [discriminate|].
    apply fetch_transcript_raise in Hfetch. subst cache2.
    injection Hrun as <- _.
    destruct Hshr as [->|[-> (e0 & He0 & _)]]; [now left|].
    right. split; [reflexivity|]. unfold PyDict.contains. now rewrite He0. }
  split; [destruct Hshape as [H|[H _]]; auto|]. split.
  - destruct Hshape as [->|[-> Hin]]; [lia|].
    pose proof (len_del key cache Hin). lia.
  - intros Hwf k e. destruct Hshape as [->|[-> _]]; [auto|].
    now apply get_del_sub.
Qed.

Lemma no_cache_write_on_failure_witness :
  (@nil (string * Entry Payload) = stale_cache \/
   [] = PyDict.del (cache_key_of "abc" None) stale_cache) /\
  (PyDict.len (@nil (string * Entry Payload)) <= PyDict.len stale_cache)%nat /\
  (PyDict.wf stale_cache ->
   forall k e, PyDict.get k (@nil (string * Entry Payload)) = Some e ->
               PyDict.get k stale_cache = Some e).
Proof.
  apply (no_cache_write_on_failure Catalogue (string * list Item)
           japanese_provider default_config 10 11 stale_cache []
           (mkRequest "abc" None "json" None "r1")
           (handle NoTranscriptFound "r1")).
  reflexivity.
Defined.

(** C10 (language_used is a requested language).  When a request that
    misses the cache succeeds, some language [l] of its list won the loop;
    [l] is not the empty string, so [language_used or "unknown"] is [l]
    itself, and [l] is the [language_used] of the dict stored under the
    request's key and of the returned dict (the [text] format returns a
    dict without that key). *)
Theorem language_used_is_requested :
  forall (TList Track : Type) (P : Provider TList Track) (cfg : Config)
         (now_get now_set : Z) (cache cache' : Cache Payload) (rq : Request)
         (resp : Payload),
    fst (get_from_cache cache (cache_key_of (req_video_id rq) (req_lang rq))
                        now_get) = None ->
    get_transcript P cfg now_get now_set cache rq = (cache', inr resp) ->
    exists l e,
      In l (languages_of (req_lang rq)) /\
      or_else (Some l) "unknown" = l /\
      PyDict.get (cache_key_of (req_video_id rq) (req_lang rq)) cache' = Some e /\
      language_used (data e) = Some l /\
      (req_format rq = "json" /\ resp = data e \/
       req_format rq = "text" /\ language_used resp = None).
Proof.
  intros TList Track P cfg now_get now_set cache cache' rq resp Hmiss Hrun.
  set (key := cache_key_of (req_video_id rq) (req_lang rq)) in *.
  destruct (unauthorized (API_KEY cfg) (req_x_api_key rq)) eqn:Hauth.
  { unfold get_transcript in Hrun. rewrite Hauth in Hrun. discriminate. }
  destruct (negb (String.eqb (req_format rq) "text"
                  || String.eqb (req_format rq) "json")) eqn:Hfmt.
  { unfold get_transcript in Hrun. rewrite Hauth, Hfmt in Hrun. discriminate. }
  destruct (get_from_cache cache key now_get) as [[hit|] cache1] eqn:Hget;
    [discriminate|].
  rewrite (get_transcript_miss P cfg now_get now_set cache rq cache1
             Hauth Hfmt Hget) in Hrun.
  fold key in Hrun.
  destruct (fetch_transcript P (CACHE_TTL_SECONDS cfg) now_set cache1
              (req_video_id rq) (languages_of (req_lang rq))
              (req_format rq) key (req_request_id rq))
    as [cache2 [r|e]] eqn:Hfetch; [|discriminate].
  injection Hrun as <- <-.
  apply fetch_transcript_ok in Hfetch
    as (tl & t & l & items & _ & Hin & _ & _ & Hc & Hr).
  pose proof (languages_truthy _ _ Hin) as Hl.
  rewrite (or_else_truthy l "unknown" Hl) in Hc, Hr.
  eexists l, _. split; [exact Hin|].
  split; [now apply or_else_truthy|].
  split; [rewrite Hc; unfold set_cache; apply get_set_same|].
  split; [reflexivity|]. simpl.
  apply negb_false_iff, orb_true_iff in Hfmt as [Hf|Hf].
  - right. rewrite Hf in Hr. apply String.eqb_eq in Hf. now rewrite Hr.
  - left. apply String.eqb_eq in Hf. split; [exact Hf|].
    rewrite Hr, Hf. reflexivity.
Qed.

Lemma language_used_is_requested_witness :
  exists l e,
    In l (languages_of (Some "xx")) /\
    or_else (Some l) "unknown" = l /\
    PyDict.get (cache_key_of "abc" (Some "xx"))
      [("abc:xx",
        mkEntry (mkPayload "abc" "A B C" (Some "xx")
                   (Some [mkSegment "A" 0 1; mkSegment "B" 1 1;
                          mkSegment "C" 2 0]) "r1")
                (1 + timedelta_seconds 3600))] = Some e /\
    language_used (data e) = Some l /\
    ("json" = "json" /\
     mkPayload "abc" "A B C" (Some "xx")
       (Some [mkSegment "A" 0 1; mkSegment "B" 1 1; mkSegment "C" 2 0]) "r1"
     = data e \/
     "json" = "text" /\
     language_used
       (mkPayload "abc" "A B C" (Some "xx")
          (Some [mkSegment "A" 0 1; mkSegment "B" 1 1; mkSegment "C" 2 0])
          "r1") = None).
Proof.
  apply (language_used_is_requested Catalogue (string * list Item)
           german_provider default_config 0 1 []
           [("abc:xx",
             mkEntry (mkPayload "abc" "A B C" (Some "xx")
                        (Some [mkSegment "A" 0 1; mkSegment "B" 1 1;
                               mkSegment "C" 2 0]) "r1")
                     (1 + timedelta_seconds 3600))]
           (mkRequest "abc" (Some "xx") "json" None "r1")
           (mkPayload "abc" "A B C" (Some "xx")
              (Some [mkSegment "A" 0 1; mkSegment "B" 1 1; mkSegment "C" 2 0])
              "r1")).
  - reflexivity.
  - reflexivity.
Defined.

(** C1 (segments are cached whatever the format): the code departs from
    it.  The segments are built, and stored, only under
    [format == "json"].  A [text] request fills the cache with a dict
    without [segments]; a [json] request for the same video within the
    TTL is then answered from the cache without [segments], although the
    same request on an empty cache returns them. *)
Theorem cached_text_result_lacks_segments :
  get_transcript english_provider default_config 0 1 []
                 (mkRequest "abc" None "text" None "r1")
    = (text_filled_cache, inr (mkPayload "abc" "A B C" None None "r1")) /\
  get_transcript english_provider default_config 2 3 text_filled_cache
                 (mkRequest "abc" None "json" None "r2")
    = (text_filled_cache,
       inr (mkPayload "abc" "A B C" (Some "en") None "r2")) /\
  snd (get_transcript english_provider default_config 2 3 []
                      (mkRequest "abc" None "json" None "r2"))
    = inr (mkPayload "abc" "A B C" (Some "en") (Some demo_segments) "r2").
Proof. repeat split; vm_compute; reflexivity. Qed.

(** C9 (cache keys are distinct): the code departs from it.  The key
    joins the languages with a comma, so the single language
    [pt-BR,pt,pt-PT,en] and the default list of four languages give the
    same key for the same video; a request with that [lang] is then
    answered from the entry stored for the default list, while on an empty
    cache it ends in 404. *)
Theorem cache_key_collision :
  languages_of (Some "pt-BR,pt,pt-PT,en") <> languages_of None /\
  cache_key_of "abc" (Some "pt-BR,pt,pt-PT,en") = cache_key_of "abc" None /\
  snd (get_transcript english_provider default_config 2 3 text_filled_cache
                      (mkRequest "abc" (Some "pt-BR,pt,pt-PT,en") "json"
                                 None "r2"))
    = inr (mkPayload "abc" "A B C" (Some "en") None "r2") /\
  snd (get_transcript english_provider default_config 2 3 []
                      (mkRequest "abc" (Some "pt-BR,pt,pt-PT,en") "json"
                                 None "r2"))
    = inl (handle NoTranscriptFound "r2").
Proof.
  split; [vm_compute; discriminate|].
  repeat split; vm_compute; reflexivity.
Qed.

(** The keys of the language lists [en] and [en, pt] differ for every
    video. *)
Lemma cache_key_en_vs_en_pt (video : string) :
  get_cache_key video (String.concat "," ["en"]) <>
  get_cache_key video (String.concat "," ["en"; "pt"]).
Proof.
  unfold get_cache_key. simpl.
  induction video as [|a v IH]; simpl; [discriminate|].
  intros H. injection H as H. exact (IH H).
Qed.

(** ** Further properties of the cache *)

Section MoreCacheFacts.
Context {Data : Type}.
Implicit Types (c : Cache Data) (key k : string).

Lemma get_from_cache_wf c key now :
  PyDict.wf c -> PyDict.wf (snd (get_from_cache c key now)).
Proof.
  intros Hwf.
  destruct (get_from_cache_shrinks c key now) as [->|[-> _]];
    [exact Hwf | now apply wf_del].
Qed.

Lemma get_from_cache_len c key now :
  (PyDict.len (snd (get_from_cache c key now)) <= PyDict.len c)%nat.
Proof.
  destruct (get_from_cache_shrinks c key now) as [->|[-> (e & He & _)]];
    [lia|].
  assert (Hin : PyDict.contains key c = true)
    by (unfold PyDict.contains; now rewrite He).
  pose proof (len_del key c Hin). lia.
Qed.

Lemma run_ops_invariant ttl c (ops : list (cache_op Data)) :
  PyDict.wf c -> (PyDict.len c <= CACHE_MAX_SIZE)%nat ->
  Forall (fun c' => PyDict.wf c' /\ (PyDict.len c' <= CACHE_MAX_SIZE)%nat)
         (run_ops ttl c ops).
Proof.
  revert c. induction ops as [|[key now|key d now] r IH]; intros c Hwf Hle;
    simpl.
  - constructor.
  - pose proof (get_from_cache_wf c key now Hwf) as Hwf'.
    pose proof (get_from_cache_len c key now) as Hlen.
    constructor; [split; [exact Hwf' | lia] | apply IH; [exact Hwf' | lia]].
  - pose proof (set_cache_wf ttl c key d now Hwf) as Hwf'.
    pose proof (set_cache_len ttl c key d now Hle) as Hle'.
    constructor; [now split | now apply IH].
Qed.

(** The position of the minimum: everything before it has a strictly
    larger key, everything after it a key at least as large. *)
Lemma min_from_position {A : Type} (f : A -> Z) (xs acc mid : list A)
      (best : A) :
  Forall (fun y => f best < f y) acc ->
  Forall (fun y => f best <= f y) mid ->
  exists pre post,
    (acc ++ best :: mid ++ xs = pre ++ min_from f best xs :: post)%list /\
    Forall (fun y => f (min_from f best xs) < f y) pre /\
    Forall (fun y => f (min_from f best xs) <= f y) post.
Proof.
  revert acc mid best.
  induction xs as [|x r IH]; intros acc mid best Hacc Hmid; simpl.
  - exists acc, mid. rewrite app_nil_r. now repeat split.
  - destruct (Z.ltb_spec (f x) (f best)) as [Hlt|Hge].
    + destruct (IH (acc ++ best :: mid)%list [] x) as (pre & post & Heq & H1 & H2).
      * apply Forall_app. split.
        -- eapply Forall_impl; [|exact Hacc]. simpl. intros; lia.
        -- constructor; [lia|].
           eapply Forall_impl; [|exact Hmid]. simpl. intros; lia.
      * constructor.
      * exists pre, post. repeat split; try assumption.
        rewrite <- Heq. simpl. now rewrite <- app_assoc.
    + destruct (IH acc (mid ++ [x])%list best) as (pre & post & Heq & H1 & H2).
      * exact Hacc.
      * apply Forall_app. split; [exact Hmid|]. constructor; [lia|constructor].
      * exists pre, post. repeat split; try assumption.
        rewrite <- Heq. now rewrite <- app_assoc.
Qed.

End MoreCacheFacts.

(** X1 (a hit changes nothing).  When [get_from_cache] returns a value,
    the cache is left as it was, the value is the [data] of the entry
    under the key, and every read of that key at a clock reading up to the
    entry's expiry returns the same value and the same cache. *)
Theorem repeated_get_same :
  forall (Data : Type) (c c' : Cache Data) (key : string) (now : Z) (d : Data),
    get_from_cache c key now = (Some d, c') ->
    c' = c /\
    exists e,
      PyDict.get key c = Some e /\ data e = d /\ now <= expires_at e /\
      forall now', now' <= expires_at e ->
                   get_from_cache c key now' = (Some d, c).
Proof.
  intros Data c c' key now d. unfold get_from_cache.
  destruct (PyDict.get key c) as [e|] eqn:Hget; [|discriminate].
  destruct (Z.gtb_spec now (expires_at e)) as [Hgt|Hle]; [discriminate|].
  intros [= <- <-]. split; [reflexivity|].
  exists e. repeat split; [exact Hle|].
  intros now' Hnow'.
  destruct (Z.gtb_spec now' (expires_at e)); [lia | reflexivity].
Qed.

Lemma repeated_get_same_witness :
  text_filled_cache = text_filled_cache /\
  exists e,
    PyDict.get "abc:pt-BR,pt,pt-PT,en" text_filled_cache = Some e /\
    data e = mkPayload "abc" "A B C" (Some "en") None "r1" /\
    2 <= expires_at e /\
    forall now', now' <= expires_at e ->
      get_from_cache text_filled_cache "abc:pt-BR,pt,pt-PT,en" now' =
      (Some (mkPayload "abc" "A B C" (Some "en") None "r1"),
       text_filled_cache).
Proof.
  apply (repeated_get_same Payload text_filled_cache text_filled_cache
           "abc:pt-BR,pt,pt-PT,en" 2
           (mkPayload "abc" "A B C" (Some "en") None "r1")).
  reflexivity.
Defined.

(** X2 (what a read may change).  [get_from_cache] keeps the keys of the
    dict distinct, never makes it longer, leaves the entry of every other
    key as it was, and when it returns [None] the key it was asked for is
    not in the cache afterwards. *)
Theorem get_from_cache_frame :
  forall (Data : Type) (c : Cache Data) (key : string) (now : Z),
    PyDict.wf c ->
    PyDict.wf (snd (get_from_cache c key now)) /\
    (PyDict.len (snd (get_from_cache c key now)) <= PyDict.len c)%nat /\
    (forall k, k <> key ->
       PyDict.get k (snd (get_from_cache c key now)) = PyDict.get k c) /\
    (fst (get_from_cache c key now) = None ->
     PyDict.get key (snd (get_from_cache c key now)) = None).
Proof.
  intros Data c key now Hwf.
  split; [now apply get_from_cache_wf|].
  split; [apply get_from_cache_len|].
  unfold get_from_cache.
  destruct (PyDict.get key c) as [e|] eqn:Hget; simpl.
  - destruct (now >? expires_at e); simpl.
    + split; [intros k Hk; now apply get_del_other|].
      intros _. now apply get_del_same.
    + split; [reflexivity | discriminate].
  - split; [reflexivity | intros _; exact Hget].
Qed.

Lemma get_from_cache_frame_witness :
  PyDict.wf (snd (get_from_cache stale_cache "abc:pt-BR,pt,pt-PT,en" 10)) /\
  (PyDict.len (snd (get_from_cache stale_cache "abc:pt-BR,pt,pt-PT,en" 10))
   <= PyDict.len stale_cache)%nat /\
  (forall k, k <> "abc:pt-BR,pt,pt-PT,en" ->
     PyDict.get k (snd (get_from_cache stale_cache "abc:pt-BR,pt,pt-PT,en" 10))
     = PyDict.get k stale_cache) /\
  (fst (get_from_cache stale_cache "abc:pt-BR,pt,pt-PT,en" 10) = None ->
   PyDict.get "abc:pt-BR,pt,pt-PT,en"
     (snd (get_from_cache stale_cache "abc:pt-BR,pt,pt-PT,en" 10)) = None).
Proof.
  apply (get_from_cache_frame Payload stale_cache "abc:pt-BR,pt,pt-PT,en" 10).
  reflexivity.
Defined.

(** X3 (ties go to the first key in iteration order).  The key chosen
    for eviction is bound to an entry such that every entry before it in
    the dict's iteration order expires strictly later and every entry
    after it no earlier: among entries of equal least expiry the one that
    comes first in the dict is evicted. *)
Theorem eviction_tie_break :
  forall (Data : Type) (c : Cache Data) (k0 : string),
    oldest_key c = Some k0 ->
    exists e0 pre post,
      c = (pre ++ (k0, e0) :: post)%list /\
      Forall (fun kv => expires_at e0 < expires_at (snd kv)) pre /\
      Forall (fun kv => expires_at e0 <= expires_at (snd kv)) post.
Proof.
  intros Data c k0. unfold oldest_key, py_min.
  destruct c as [|x r]; simpl; [discriminate|].
  intros [= Hk0].
  destruct (min_from_position (fun kv : string * Entry Data => expires_at (snd kv))
              r [] [] x) as (pre & post & Heq & Hpre & Hpost);
    [constructor | constructor |].
  simpl in Heq.
  destruct (min_from (fun kv => expires_at (snd kv)) x r) as [k e0] eqn:Hm.
  simpl in Hk0. subst k.
  exists e0, pre, post. now repeat split.
Qed.

Lemma eviction_tie_break_witness :
  exists e0 pre post,
    [("a", mkEntry tt 7); ("b", mkEntry tt 5); ("c", mkEntry tt 5)] =
      (pre ++ ("b", e0) :: post)%list /\
    Forall (fun kv => expires_at e0 < expires_at (snd kv)) pre /\
    Forall (fun kv => expires_at e0 <= expires_at (snd kv)) post.
Proof.
  apply (eviction_tie_break unit
           [("a", mkEntry tt 7); ("b", mkEntry tt 5); ("c", mkEntry tt 5)] "b").
  reflexivity.
Defined.

(** X4 (capacity under reads and writes).  After each step of any
    sequence of [get_from_cache] and [set_cache] calls that starts from
    the empty cache, the dict binds no key twice and holds at most 256
    keys. *)
Theorem cache_ops_capacity :
  forall (Data : Type) (ttl : Z) (ops : list (cache_op Data)),
    Forall (fun c => PyDict.wf c /\ (distinct_keys c <= 256)%nat)
           (run_ops ttl [] ops).
Proof.
  intros Data ttl ops.
  assert (H0 : PyDict.wf (@nil (string * Entry Data))) by reflexivity.
  assert (H1 : (PyDict.len (@nil (string * Entry Data)) <= CACHE_MAX_SIZE)%nat)
    by (unfold PyDict.len, CACHE_MAX_SIZE; simpl; lia).
  pose proof (run_ops_invariant ttl [] ops H0 H1) as Hinv.
  eapply Forall_impl; [|exact Hinv].
  intros c [Hwf Hle]. split; [exact Hwf|].
  rewrite distinct_keys_wf by exact Hwf. exact Hle.
Qed.

(** ** Further properties of the endpoint *)

Lemma unauthorized_verify api_key x_api_key :
  verify_api_key api_key x_api_key =
  if unauthorized api_key x_api_key
  then Some (mkHTTP 401 "unauthorized" None None None)
  else None.
Proof.
  unfold verify_api_key, unauthorized.
  destruct (truthy api_key); simpl; [|reflexivity].
  destruct x_api_key as [k|]; reflexivity.
Qed.

Lemma get_transcript_hit {TList Track : Type} (P : Provider TList Track)
      cfg now_get now_set cache rq cached cache1 :
  unauthorized (API_KEY cfg) (req_x_api_key rq) = false ->
  negb (String.eqb (req_format rq) "text"
        || String.eqb (req_format rq) "json") = false ->
  get_from_cache cache (cache_key_of (req_video_id rq) (req_lang rq)) now_get
    = (Some cached, cache1) ->
  get_transcript P cfg now_get now_set cache rq =
  (cache1,
   inr (if String.eqb (req_format rq) "text"
        then text_only (with_request_id cached (req_request_id rq))
                       (req_request_id rq)
        else with_request_id cached (req_request_id rq))).
Proof.
  intros Hauth Hfmt Hget. unfold get_transcript, cache_key_of in *.
  now rewrite Hauth, Hfmt, Hget.
Qed.

Lemma valid_format_cases (format : string) :
  negb (String.eqb format "text" || String.eqb format "json") = false <->
  format = "text" \/ format = "json".
Proof.
  rewrite negb_false_iff, orb_true_iff, !String.eqb_eq. reflexivity.
Qed.



(** X5 (who passes the key check).  [verify_api_key] returns without
    raising exactly when no key is configured or the header carries the
    configured key; a missing or empty header passes only without a
    configured key. *)
Theorem verify_api_key_accepts :
  forall (api_key : string) (x_api_key : option string),
    verify_api_key api_key x_api_key = None <->
    api_key = "" \/ x_api_key = Some api_key.
Proof.
  intros api_key x_api_key. unfold verify_api_key, truthy.
  destruct (String.eqb_spec api_key "") as [->|Hne]; simpl.
  - split; [now left | reflexivity].
  - destruct x_api_key as [k|].
    + destruct (String.eqb_spec k "") as [->|Hk]; simpl.
      * split; [discriminate|]. intros [H|[= H]]; congruence.
      * destruct (String.eqb_spec k api_key) as [->|Hka]; simpl.
        -- split; [now right | reflexivity].
        -- split; [discriminate|]. intros [H|[= H]]; congruence.
    + split; [discriminate|]. intros [H|H]; [congruence | discriminate].
Qed.

(** X6 (the key check comes first).  The inline check of
    [get_transcript] is the one of [verify_api_key]: when it raises,
    the endpoint answers 401 [unauthorized] with the cache untouched,
    whatever the format, the cache content and the provider; when it does
    not, no answer of the endpoint has status 401. *)
Theorem auth_gate :
  forall (TList Track : Type) (P : Provider TList Track) (cfg : Config)
         (now_get now_set : Z) (cache : Cache Payload) (rq : Request),
    (forall h, verify_api_key (API_KEY cfg) (req_x_api_key rq) = Some h ->
       get_transcript P cfg now_get now_set cache rq = (cache, inl h) /\
       status_code h = 401 /\ error h = "unauthorized") /\
    (verify_api_key (API_KEY cfg) (req_x_api_key rq) = None ->
     forall cache' h,
       get_transcript P cfg now_get now_set cache rq = (cache', inl h) ->
       status_code h <> 401).
Proof.
  intros TList Track P cfg now_get now_set cache rq.
  rewrite unauthorized_verify. unfold get_transcript.
  destruct (unauthorized (API_KEY cfg) (req_x_api_key rq)).
  - split; [|discriminate]. intros h [= <-]. now repeat split.
  - split; [discriminate|]. intros _ cache' h.
    destruct (negb (String.eqb (req_format rq) "text"
                    || String.eqb (req_format rq) "json")).
    { intros [= _ <-]. simpl. discriminate. }
    destruct (get_from_cache cache _ now_get) as [[hit|] cache1];
      [discriminate|].
    destruct (fetch_transcript P _ now_set cache1 _ _ _ _ _)
      as [cache2 [r|e]]; [discriminate|].
    intros [= _ <-]. destruct e; simpl; discriminate.
Qed.

(** X7 (the format check comes before the cache).  A request that passes
    the key check with a [format] other than [text] and [json] is
    answered 400 [invalid_format]; the cache is untouched, so not even a
    stale entry is deleted, and the provider plays no part. *)
Theorem invalid_format_rejected :
  forall (TList Track : Type) (P : Provider TList Track) (cfg : Config)
         (now_get now_set : Z) (cache : Cache Payload) (rq : Request),
    verify_api_key (API_KEY cfg) (req_x_api_key rq) = None ->
    req_format rq <> "text" ->
    req_format rq <> "json" ->
    get_transcript P cfg now_get now_set cache rq =
    (cache, inl (mkHTTP 400 "invalid_format"
                        (Some "Formato deve ser 'text' ou 'json'") None None)).
Proof.
  intros TList Track P cfg now_get now_set cache rq Hauth Ht Hj.
  rewrite unauthorized_verify in Hauth. unfold get_transcript.
  destruct (unauthorized (API_KEY cfg) (req_x_api_key rq)); [discriminate|].
  destruct (String.eqb_spec (req_format rq) "text"); [contradiction|].
  destruct (String.eqb_spec (req_format rq) "json"); [contradiction|].
  reflexivity.
Qed.

Lemma invalid_format_rejected_witness :
  get_transcript english_provider default_config 10 11 stale_cache
                 (mkRequest "abc" None "xml" None "r1") =
  (stale_cache, inl (mkHTTP 400 "invalid_format"
                       (Some "Formato deve ser 'text' ou 'json'") None None)).
Proof.
  apply (invalid_format_rejected Catalogue (string * list Item)
           english_provider default_config 10 11 stale_cache
           (mkRequest "abc" None "xml" None "r1")).
  - reflexivity.
  - discriminate.
  - discriminate.
Defined.

(** X8 (a hit short-circuits).  When the request passes both checks and
    [get_from_cache] returns a dict, the answer is built from that dict
    alone: the cache is unchanged, the provider plays no part, the
    [request_id] is the one of the present request, and the [text] format
    keeps only [video_id], [text] and [request_id]. *)
Theorem cache_hit_short_circuits :
  forall (TList Track : Type) (P : Provider TList Track) (cfg : Config)
         (now_get now_set : Z) (cache cache1 : Cache Payload) (rq : Request)
         (cached : Payload),
    verify_api_key (API_KEY cfg) (req_x_api_key rq) = None ->
    req_format rq = "text" \/ req_format rq = "json" ->
    get_from_cache cache (cache_key_of (req_video_id rq) (req_lang rq)) now_get
      = (Some cached, cache1) ->
    get_transcript P cfg now_get now_set cache rq =
    (cache,
     inr (if String.eqb (req_format rq) "text"
          then mkPayload (video_id cached) (text cached) None None
                         (req_request_id rq)
          else mkPayload (video_id cached) (text cached)
                         (language_used cached) (segments cached)
                         (req_request_id rq))).
Proof.
  intros TList Track P cfg now_get now_set cache cache1 rq cached
         Hauth Hfmt Hget.
  rewrite unauthorized_verify in Hauth.
  destruct (unauthorized (API_KEY cfg) (req_x_api_key rq)) eqn:Hun;
    [discriminate|].
  apply valid_format_cases in Hfmt.
  rewrite (get_transcript_hit P cfg now_get now_set cache rq cached cache1
             Hun Hfmt Hget).
  destruct (repeated_get_same _ _ _ _ _ _ Hget) as [-> _].
  reflexivity.
Qed.

Lemma cache_hit_short_circuits_witness :
  get_transcript japanese_provider default_config 2 3 text_filled_cache
                 (mkRequest "abc" None "text" None "r2") =
  (text_filled_cache,
   inr (if String.eqb "text" "text"
        then mkPayload "abc" "A B C" None None "r2"
        else mkPayload "abc" "A B C" (Some "en") None "r2")).
Proof.
  apply (cache_hit_short_circuits Catalogue (string * list Item)
           japanese_provider default_config 2 3 text_filled_cache
           text_filled_cache (mkRequest "abc" None "text" None "r2")
           (mkPayload "abc" "A B C" (Some "en") None "r1")).
  - reflexivity.
  - left. reflexivity.
  - reflexivity.
Defined.

Lemma auth_gate_witness :
  get_transcript english_provider (mkConfig "s3cret" 3600) 10 11 stale_cache
                 (mkRequest "abc" None "xml" (Some "guess") "r1") =
    (stale_cache, inl (mkHTTP 401 "unauthorized" None None None)) /\
  status_code (mkHTTP 401 "unauthorized" None None None) = 401 /\
  error (mkHTTP 401 "unauthorized" None None None) = "unauthorized".
Proof.
  apply (auth_gate Catalogue (string * list Item) english_provider
           (mkConfig "s3cret" 3600) 10 11 stale_cache
           (mkRequest "abc" None "xml" (Some "guess") "r1")).
  reflexivity.
Defined.

(** X9 (a stored answer is served again).  After a request that missed
    the cache and succeeded at clock reading [now_set], the same request
    sent again under any [request_id], read at any clock reading up to
    [now_set + CACHE_TTL_SECONDS], gets the same answer with its own
    [request_id]; the provider plays no part and the cache is unchanged. *)
Theorem repeat_request_hits_cache :
  forall (TList Track : Type) (P P' : Provider TList Track) (cfg : Config)
         (now_get now_set now_get' now_set' : Z)
         (cache cache' : Cache Payload) (rq : Request) (r : Payload)
         (rid' : string),
    fst (get_from_cache cache (cache_key_of (req_video_id rq) (req_lang rq))
                        now_get) = None ->
    get_transcript P cfg now_get now_set cache rq = (cache', inr r) ->
    now_get' <= now_set + timedelta_seconds (CACHE_TTL_SECONDS cfg) ->
    get_transcript P' cfg now_get' now_set' cache' (resend rq rid') =
    (cache', inr (with_request_id r rid')).
Proof.
  intros TList Track P P' cfg now_get now_set now_get' now_set' cache cache'
         rq r rid' Hmiss Hrun Hnow.
  set (key := cache_key_of (req_video_id rq) (req_lang rq)) in *.
  destruct (unauthorized (API_KEY cfg) (req_x_api_key rq)) eqn:Hauth.
  { unfold get_transcript in Hrun. rewrite Hauth in Hrun. discriminate. }
  destruct (negb (String.eqb (req_format rq) "text"
                  || String.eqb (req_format rq) "json")) eqn:Hfmt.
  { unfold get_transcript in Hrun. rewrite Hauth, Hfmt in Hrun. discriminate. }
  destruct (get_from_cache cache key now_get) as [[hit|] cache1] eqn:Hget;
    [discriminate|].
  rewrite (get_transcript_miss P cfg now_get now_set cache rq cache1
             Hauth Hfmt Hget) in Hrun.
  fold key in Hrun.
  destruct (fetch_transcript P (CACHE_TTL_SECONDS cfg) now_set cache1
              (req_video_id rq) (languages_of (req_lang rq))
              (req_format rq) key (req_request_id rq))
    as [cache2 [r0|e]] eqn:Hfetch; [|discriminate].
  injection Hrun as <- <-.
  apply fetch_transcript_ok in Hfetch
    as (tl & t & l & items & _ & _ & _ & _ & Hc & Hr).
  set (res := mkPayload (req_video_id rq)
                (String.concat " " (map item_text items))
                (Some (or_else (Some l) "unknown"))
                (if String.eqb (req_format rq) "json"
                 then Some (map segment_of items) else None)
                (req_request_id rq)) in *.
  assert (Hhit : get_from_cache cache2
                   (cache_key_of (req_video_id (resend rq rid'))
                                 (req_lang (resend rq rid'))) now_get'
                 = (Some res, cache2)).
  { simpl. fold key. unfold get_from_cache.
    replace (PyDict.get key cache2)
      with (Some (mkEntry res
                    (now_set + timedelta_seconds (CACHE_TTL_SECONDS cfg))))
      by (rewrite Hc; unfold set_cache; symmetry; apply get_set_same).
    simpl.
    destruct (Z.gtb_spec now_get'
                (now_set + timedelta_seconds (CACHE_TTL_SECONDS cfg)));
      [lia | reflexivity]. }
  rewrite (get_transcript_hit P' cfg now_get' now_set' cache2
             (resend rq rid') res cache2 Hauth Hfmt Hhit).
  simpl. rewrite Hr. now destruct (String.eqb (req_format rq) "text").
Qed.

Lemma repeat_request_hits_cache_witness :
  get_transcript japanese_provider default_config 2 3 text_filled_cache
                 (resend (mkRequest "abc" None "text" None "r1") "r2") =
  (text_filled_cache,
   inr (with_request_id (mkPayload "abc" "A B C" None None "r1") "r2")).
Proof.
  apply (repeat_request_hits_cache Catalogue (string * list Item)
           english_provider japanese_provider default_config 0 1 2 3
           [] text_filled_cache (mkRequest "abc" None "text" None "r1")
           (mkPayload "abc" "A B C" None None "r1") "r2").
  - reflexivity.
  - reflexivity.
  - vm_compute. discriminate.
Defined.

(** X10 (provider failures are classified by class).  On a request that
    passes both checks and misses the cache, an exception raised by the
    catalogue lookup, or by the fetch of the chosen track, is answered
    through the handler of its class (404 for disabled, not found and
    unavailable, 429 for too many requests, 500 otherwise), and the cache
    is the one left by [get_from_cache]. *)
Theorem provider_failure_classified :
  forall (TList Track : Type) (P : Provider TList Track) (cfg : Config)
         (now_get now_set : Z) (cache : Cache Payload) (rq : Request)
         (e : Exn),
    verify_api_key (API_KEY cfg) (req_x_api_key rq) = None ->
    req_format rq = "text" \/ req_format rq = "json" ->
    fst (get_from_cache cache (cache_key_of (req_video_id rq) (req_lang rq))
                        now_get) = None ->
    list_transcripts P (req_video_id rq) = Raise e \/
    (exists tl t lu,
        list_transcripts P (req_video_id rq) = Ok tl /\
        find_in_languages P tl (languages_of (req_lang rq)) = (Some t, lu) /\
        fetch P t = Raise e) ->
    get_transcript P cfg now_get now_set cache rq =
      (snd (get_from_cache cache
              (cache_key_of (req_video_id rq) (req_lang rq)) now_get),
       inl (handle e (req_request_id rq))) /\
    status_code (handle e (req_request_id rq)) =
      match e with
      | TranscriptsDisabled | NoTranscriptFound | VideoUnavailable => 404
      | TooManyRequests => 429
      | OtherError _ => 500
      end.
Proof.
  intros TList Track P cfg now_get now_set cache rq e Hauth Hfmt Hmiss Hfail.
  rewrite unauthorized_verify in Hauth.
  destruct (unauthorized (API_KEY cfg) (req_x_api_key rq)) eqn:Hun;
    [discriminate|].
  apply valid_format_cases in Hfmt.
  split; [|now destruct e].
  destruct (get_from_cache cache _ now_get) as [[hit|] cache1] eqn:Hget;
    [discriminate|].
  rewrite (get_transcript_miss P cfg now_get now_set cache rq cache1
             Hun Hfmt Hget).
  unfold fetch_transcript.
  destruct Hfail as [Hlist | (tl & t & lu & Hlist & Hfind & Hfetch)].
  - now rewrite Hlist.
  - now rewrite Hlist, Hfind, Hfetch.
Qed.

Lemma provider_failure_classified_witness :
  get_transcript english_provider default_config 0 1 []
                 (mkRequest "gone" None "json" None "r1") =
    (snd (get_from_cache [] (cache_key_of "gone" None) 0),
     inl (handle VideoUnavailable "r1")) /\
  status_code (handle VideoUnavailable "r1") = 404.
Proof.
  apply (provider_failure_classified Catalogue (string * list Item)
           english_provider default_config 0 1 []
           (mkRequest "gone" None "json" None "r1") VideoUnavailable).
  - reflexivity.
  - right. reflexivity.
  - reflexivity.
  - left. reflexivity.
Defined.



(** X12 (the shape of an answer).  Every dict returned by the endpoint
    carries the [request_id] of the present request, also when it comes
    from the cache, and under [format = text] it has neither
    [language_used] nor [segments]. *)
Theorem success_answer_shape :
  forall (TList Track : Type) (P : Provider TList Track) (cfg : Config)
         (now_get now_set : Z) (cache cache' : Cache Payload) (rq : Request)
         (r : Payload),
    get_transcript P cfg now_get now_set cache rq = (cache', inr r) ->
    request_id r = req_request_id rq /\
    (req_format rq = "text" \/ req_format rq = "json") /\
    (req_format rq = "text" -> language_used r = None /\ segments r = None).
Proof.
  intros TList Track P cfg now_get now_set cache cache' rq r.
  unfold get_transcript.
  destruct (unauthorized (API_KEY cfg) (req_x_api_key rq)); [discriminate|].
  destruct (negb (String.eqb (req_format rq) "text"
                  || String.eqb (req_format rq) "json")) eqn:Hfmt;
    [discriminate|].
  apply valid_format_cases in Hfmt.
  destruct (get_from_cache cache _ now_get) as [[hit|] cache1].
  - intros [= _ <-]. split; [|split; [exact Hfmt|]].
    + now destruct (String.eqb (req_format rq) "text").
    + intros ->. now split.
  - destruct (fetch_transcript P _ now_set cache1 _ _ _ _ _)
      as [cache2 [r0|e]] eqn:Hfetch; [|discriminate].
    intros [= _ <-].
    apply fetch_transcript_ok in Hfetch
      as (tl & t & l & items & _ & _ & _ & _ & _ & ->).
    split; [|split; [exact Hfmt|]].
    + now destruct (String.eqb (req_format rq) "text").
    + intros ->. now split.
Qed.

Lemma success_answer_shape_witness :
  request_id (mkPayload "abc" "A B C" None None "r2") = "r2" /\
  ("text" = "text" \/ "text" = "json") /\
  ("text" = "text" ->
   language_used (mkPayload "abc" "A B C" None None "r2") = None /\
   segments (mkPayload "abc" "A B C" None None "r2") = None).
Proof.
  apply (success_answer_shape Catalogue (string * list Item)
           japanese_provider default_config 2 3 text_filled_cache
           text_filled_cache (mkRequest "abc" None "text" None "r2")
           (mkPayload "abc" "A B C" None None "r2")).
  reflexivity.
Defined.

Lemma seg_text_of_items (items : list Item) :
  map seg_text (map segment_of items) = map item_text items.
Proof. rewrite map_map. reflexivity. Qed.

(** X13 (text and segments agree).  A [json] request that misses the
    cache and succeeds returns, and stores under its key, a dict for the
    requested video whose [segments] are there and whose [text] is the
    texts of those segments, in order, joined by single spaces. *)
Theorem json_text_matches_segments :
  forall (TList Track : Type) (P : Provider TList Track) (cfg : Config)
         (now_get now_set : Z) (cache cache' : Cache Payload) (rq : Request)
         (r : Payload),
    req_format rq = "json" ->
    fst (get_from_cache cache (cache_key_of (req_video_id rq) (req_lang rq))
                        now_get) = None ->
    get_transcript P cfg now_get now_set cache rq = (cache', inr r) ->
    exists segs,
      segments r = Some segs /\
      text r = String.concat " " (map seg_text segs) /\
      video_id r = req_video_id rq /\
      PyDict.get (cache_key_of (req_video_id rq) (req_lang rq)) cache' =
        Some (mkEntry r (now_set + timedelta_seconds (CACHE_TTL_SECONDS cfg))).
Proof.
  intros TList Track P cfg now_get now_set cache cache' rq r Hjson Hmiss Hrun.
  set (key := cache_key_of (req_video_id rq) (req_lang rq)) in *.
  destruct (unauthorized (API_KEY cfg) (req_x_api_key rq)) eqn:Hauth.
  { unfold get_transcript in Hrun. rewrite Hauth in Hrun. discriminate. }
  assert (Hfmt : negb (String.eqb (req_format rq) "text"
                       || String.eqb (req_format rq) "json") = false)
    by (rewrite Hjson; reflexivity).
  destruct (get_from_cache cache key now_get) as [[hit|] cache1] eqn:Hget;
    [discriminate|].
  rewrite (get_transcript_miss P cfg now_get now_set cache rq cache1
             Hauth Hfmt Hget) in Hrun.
  fold key in Hrun.
  destruct (fetch_transcript P (CACHE_TTL_SECONDS cfg) now_set cache1
              (req_video_id rq) (languages_of (req_lang rq))
              (req_format rq) key (req_request_id rq))
    as [cache2 [r0|e]] eqn:Hfetch; [|discriminate].
  injection Hrun as <- <-.
  apply fetch_transcript_ok in Hfetch
    as (tl & t & l & items & _ & _ & _ & _ & Hc & Hr).
  rewrite Hjson in Hc, Hr. simpl in Hc, Hr.
  exists (map segment_of items). subst r0. simpl.
  split; [reflexivity|]. split; [now rewrite seg_text_of_items|].
  split; [reflexivity|].
  rewrite Hc. unfold set_cache. apply get_set_same.
Qed.

Lemma json_text_matches_segments_witness :
  exists segs,
    segments (mkPayload "abc" "A B C" (Some "en") (Some demo_segments) "r2")
      = Some segs /\
    text (mkPayload "abc" "A B C" (Some "en") (Some demo_segments) "r2")
      = String.concat " " (map seg_text segs) /\
    video_id (mkPayload "abc" "A B C" (Some "en") (Some demo_segments) "r2")
      = "abc" /\
    PyDict.get (cache_key_of "abc" None)
      [("abc:pt-BR,pt,pt-PT,en",
        mkEntry (mkPayload "abc" "A B C" (Some "en") (Some demo_segments) "r2")
                (3 + timedelta_seconds 3600))] =
      Some (mkEntry
              (mkPayload "abc" "A B C" (Some "en") (Some demo_segments) "r2")
              (3 + timedelta_seconds (CACHE_TTL_SECONDS default_config))).
Proof.
  apply (json_text_matches_segments Catalogue (string * list Item)
           english_provider default_config 2 3 []
           [("abc:pt-BR,pt,pt-PT,en",
             mkEntry
               (mkPayload "abc" "A B C" (Some "en") (Some demo_segments) "r2")
               (3 + timedelta_seconds 3600))]
           (mkRequest "abc" None "json" None "r2")
           (mkPayload "abc" "A B C" (Some "en") (Some demo_segments) "r2")).
  - reflexivity.
  - reflexivity.
  - reflexivity.
Defined.

Lemma get_transcript_invariant {TList Track : Type} (P : Provider TList Track)
      cfg now_get now_set cache rq :
  PyDict.wf cache -> (PyDict.len cache <= CACHE_MAX_SIZE)%nat ->
  PyDict.wf (fst (get_transcript P cfg now_get now_set cache rq)) /\
  (PyDict.len (fst (get_transcript P cfg now_get now_set cache rq))
   <= CACHE_MAX_SIZE)%nat.
Proof.
  intros Hwf Hle. unfold get_transcript.
  destruct (unauthorized (API_KEY cfg) (req_x_api_key rq)); [now split|].
  destruct (negb (String.eqb (req_format rq) "text"
                  || String.eqb (req_format rq) "json")); [now split|].
  pose proof (get_from_cache_wf cache
                (get_cache_key (req_video_id rq)
                   (String.concat "," (languages_of (req_lang rq))))
                now_get Hwf) as Hwf1.
  pose proof (get_from_cache_len cache
                (get_cache_key (req_video_id rq)
                   (String.concat "," (languages_of (req_lang rq))))
                now_get) as Hle1.
  destruct (get_from_cache cache _ now_get) as [[hit|] cache1];
    simpl in Hwf1, Hle1; [simpl; split; [exact Hwf1 | lia]|].
  destruct (fetch_transcript P _ now_set cache1 _ _ _ _ _)
    as [cache2 [r|e]] eqn:Hfetch; simpl.
  - apply fetch_transcript_ok in Hfetch
      as (tl & t & l & items & _ & _ & _ & _ & -> & _).
    split; [now apply set_cache_wf | apply set_cache_len; lia].
  - apply fetch_transcript_raise in Hfetch. subst cache2.
    split; [exact Hwf1 | lia].
Qed.

(** X14 (capacity of the served cache).  Whatever calls the endpoint
    receives, with whatever provider answers and clock readings, starting
    from the empty cache, after each call the cache binds no key twice and
    holds at most 256 keys. *)
Theorem served_cache_capacity :
  forall (TList Track : Type) (cfg : Config) (calls : list (Call TList Track)),
    Forall (fun c => PyDict.wf c /\ (distinct_keys c <= 256)%nat)
           (serve cfg [] calls).
Proof.
  intros TList Track cfg calls.
  assert (Hinv : forall cache,
             PyDict.wf cache -> (PyDict.len cache <= CACHE_MAX_SIZE)%nat ->
             Forall (fun c => PyDict.wf c /\
                              (PyDict.len c <= CACHE_MAX_SIZE)%nat)
                    (serve cfg cache calls)).
  { induction calls as [|c r IH]; intros cache Hwf Hle; simpl.
    - constructor.
    - destruct (get_transcript_invariant (call_provider c) cfg
                  (call_now_get c) (call_now_set c) cache (call_request c)
                  Hwf Hle) as [Hwf' Hle'].
      constructor; [now split | now apply IH]. }
  eapply Forall_impl; [|apply (Hinv []); [reflexivity|]].
  - intros c [Hwf Hle]. split; [exact Hwf|].
    rewrite distinct_keys_wf by exact Hwf. exact Hle.
  - unfold PyDict.len, CACHE_MAX_SIZE. simpl. lia.
Qed.

(** X15 (eviction takes a stale entry when there is one).  When
    [set_cache] evicts at clock reading [now] and some entry of the cache
    has already expired, the evicted entry has expired too: an entry that
    is still valid is evicted only when every entry is. *)
Theorem eviction_prefers_stale :
  forall (Data : Type) (ttl : Z) (c : Cache Data) (key : string) (d : Data)
         (now : Z) (k : string) (e : Entry Data),
    PyDict.wf c ->
    (CACHE_MAX_SIZE <= PyDict.len c)%nat ->
    PyDict.get k c = Some e ->
    now > expires_at e ->
    exists k0 e0,
      PyDict.get k0 c = Some e0 /\
      now > expires_at e0 /\
      set_cache ttl c key d now =
        PyDict.set key (mkEntry d (now + timedelta_seconds ttl))
                   (PyDict.del k0 c).
Proof.
  intros Data ttl c key d now k e Hwf Hfull Hget Hstale.
  destruct (oldest_key_full c Hfull) as (k0 & e0 & Hk0 & Hin & Hmin).
  exists k0, e0. split; [now apply In_get|]. split.
  - pose proof (Hmin k e (get_In k e c Hget)). lia.
  - now apply set_cache_full.
Qed.

Lemma eviction_prefers_stale_witness :
  exists k0 e0,
    PyDict.get k0 full_cache = Some e0 /\
    3600000100 > expires_at e0 /\
    set_cache 3600 full_cache "v:en" tt 3600000100 =
      PyDict.set "v:en" (mkEntry tt (3600000100 + timedelta_seconds 3600))
                 (PyDict.del k0 full_cache).
Proof.
  apply (eviction_prefers_stale unit 3600 full_cache "v:en" tt 3600000100
           "k7" (mkEntry tt (7 + timedelta_seconds 3600))).
  - exact full_cache_wf.
  - rewrite full_cache_len. apply le_n.
  - vm_compute. reflexivity.
  - vm_compute. reflexivity.
Defined.

Lemma split_at_char (ch : ascii) (a a' b b' : string) :
  has_char ch a = false -> has_char ch a' = false ->
  a ++ String ch b = a' ++ String ch b' -> a = a' /\ b = b'.
Proof.
  revert a'. induction a as [|x a IH]; intros [|x' a']; simpl.
  - intros _ _ [= ->]. now split.
  - intros _ H [= <- _]. rewrite Ascii.eqb_refl in H. discriminate.
  - intros H _ [= -> _]. rewrite Ascii.eqb_refl in H. discriminate.
  - intros H H' [= -> Heq].
    apply orb_false_iff in H as [_ H]. apply orb_false_iff in H' as [_ H'].
    destruct (IH a' H H' Heq) as [-> ->]. now split.
Qed.

Lemma joined_languages (lang : option string) :
  (forall l, lang = Some l -> has_char "," l = false) ->
  (languages_of lang = ["pt-BR"; "pt"; "pt-PT"; "en"] /\
   String.concat "," (languages_of lang) = "pt-BR,pt,pt-PT,en") \/
  (exists l, languages_of lang = [l] /\
             String.concat "," (languages_of lang) = l /\
             has_char "," l = false).
Proof.
  intros Hfree. unfold languages_of.
  destruct lang as [l|]; [|now left].
  destruct (truthy l); [|now left].
  right. exists l. repeat split. now apply Hfree.
Qed.

(** X16 (keys are distinct without separators inside).  For video ids
    without a colon and [lang] values without a comma, two requests with
    the same cache key have the same video id and the same language
    list. *)
Theorem cache_key_injective_without_separators :
  forall (v1 v2 : string) (lang1 lang2 : option string),
    has_char ":" v1 = false ->
    has_char ":" v2 = false ->
    (forall l, lang1 = Some l -> has_char "," l = false) ->
    (forall l, lang2 = Some l -> has_char "," l = false) ->
    cache_key_of v1 lang1 = cache_key_of v2 lang2 ->
    v1 = v2 /\ languages_of lang1 = languages_of lang2.
Proof.
  intros v1 v2 lang1 lang2 Hv1 Hv2 Hl1 Hl2. unfold cache_key_of, get_cache_key.
  simpl. intros Heq.
  destruct (split_at_char ":" v1 v2 _ _ Hv1 Hv2 Heq) as [-> Hjoin].
  split; [reflexivity|].
  destruct (joined_languages lang1 Hl1) as [[E1 J1]|(l1 & E1 & J1 & F1)];
    destruct (joined_languages lang2 Hl2) as [[E2 J2]|(l2 & E2 & J2 & F2)];
    rewrite E1, E2; rewrite J1, J2 in Hjoin.
  - reflexivity.
  - subst l2. vm_compute in F2. discriminate.
  - subst l1. vm_compute in F1. discriminate.
  - now subst l2.
Qed.

Lemma cache_key_injective_without_separators_witness :
  "abc" = "abc" /\ languages_of (Some "") = languages_of None.
Proof.
  apply (cache_key_injective_without_separators "abc" "abc" (Some "") None).
  - reflexivity.
  - reflexivity.
  - intros l [= <-]. reflexivity.
  - intros l H. discriminate H.
  - reflexivity.
Defined.

(** ** The CORS configuration *)

Lemma split_words_join (sep : ascii) (s : string) :
  String.concat (String sep EmptyString)
                (fst (split_words sep s) :: snd (split_words sep s)) = s.
Proof.
  induction s as [|a r IH]; [reflexivity|]. simpl split_words.
  destruct (split_words sep r) as [w ws]. simpl fst in *. simpl snd in *.
  destruct (Ascii.eqb_spec a sep) as [->|Hne].
  - simpl fst. simpl snd.
    change (String.concat (String sep "") ("" :: w :: ws))
      with (String sep (String.concat (String sep "") (w :: ws))).
    now rewrite IH.
  - simpl fst. simpl snd. destruct ws as [|w' ws'].
    + simpl in *. now rewrite IH.
    + change (String.concat (String sep "") (String a w :: w' :: ws'))
        with (String a (String.concat (String sep "") (w :: w' :: ws'))).
      now rewrite IH.
Qed.

Lemma split_words_free (sep : ascii) (s : string) :
  Forall (fun w => has_char sep w = false)
         (fst (split_words sep s) :: snd (split_words sep s)).
Proof.
  induction s as [|a r IH]; [repeat constructor|]. simpl split_words.
  destruct (split_words sep r) as [w ws]. simpl fst in *. simpl snd in *.
  destruct (Ascii.eqb_spec a sep) as [->|Hne]; simpl.
  - constructor; [reflexivity | exact IH].
  - inversion IH as [|? ? Hw Hws]; subst. constructor; [|exact Hws].
    simpl. rewrite Hw. destruct (Ascii.eqb_spec a sep); [contradiction|].
    reflexivity.
Qed.

(** X17 (the allowed origins).  For every value of [CORS_ORIGINS] the
    list given to the CORS middleware is the value split at its commas,
    the case of [*] included: it is never empty, none of its elements
    contains a comma, and joined by commas it gives the value back (so
    spaces around the commas stay in the origins). *)
Theorem allow_origins_is_split :
  forall (CORS_ORIGINS : string),
    allow_origins CORS_ORIGINS = py_split "," CORS_ORIGINS /\
    allow_origins CORS_ORIGINS <> [] /\
    Forall (fun o => has_char "," o = false) (allow_origins CORS_ORIGINS) /\
    String.concat "," (allow_origins CORS_ORIGINS) = CORS_ORIGINS.
Proof.
  intros s.
  assert (Heq : allow_origins s = py_split "," s).
  { unfold allow_origins, cors_origins.
    destruct (String.eqb_spec s "*") as [->|Hne]; reflexivity. }
  rewrite Heq. unfold py_split.
  pose proof (split_words_join "," s) as Hjoin.
  pose proof (split_words_free "," s) as Hfree.
  destruct (split_words "," s) as [w ws]. simpl in Hjoin, Hfree.
  repeat split; [discriminate | exact Hfree | exact Hjoin].
Qed.
